(** * Movie catalogue synchronisation layer of movie_app_backend

    Shallow embedding of [core/utils.py] (provider client, movie upsert),
    [core/models.py] (Movie, Genre, UserMovieInteraction), the movie views of
    [core/views.py] and the admin permission classes of [core/permissions.py]
    and [core/views.py]; then the genre seeding of [core/utils.py], the
    interaction, admin and registration views of [core/views.py] and the
    serializers they use ([core/serializers.py]).

    Modelling conventions:
    - a TMDb JSON dict given to [save_movie_and_genres_to_db] is a record of
      optional fields ([None] = key absent);
    - floats (popularity, vote_average) are represented by [Z];
    - UUIDs generated by [uuid.uuid4] are represented by a fresh [Z]
      (one more than the largest one in use);
    - the relational store is a list of Movie rows (table order), a map
      from Genre id to name, and for each row the set of linked genre ids;
    - whether the database accepts the column values of a row (not-null,
      length and type checks done by the storage engine) is a parameter
      [accepts]; a rejected write raises inside [update_or_create], which
      runs in a transaction, and is caught by the [except] of the upsert. *)

From Stdlib Require Import ZArith String Ascii.
From stdpp Require Import base list gmap sets strings sorting pretty.

Open Scope Z_scope.

(** ** Data model (core/models.py) *)

(** An element of the [genres] list of a TMDb detail payload. *)
Record genre_entry := mk_genre_entry { ge_id : Z; ge_name : string }.

(** A TMDb movie dict as received by [save_movie_and_genres_to_db]. *)
Record payload := mk_payload {
  p_id : option Z;
  p_title : option string;
  p_overview : option string;
  p_poster_path : option string;
  p_release_date : option string;
  p_popularity : option Z;
  p_vote_average : option Z;
  p_genre_ids : option (list Z);
  p_genres : option (list genre_entry) }.

(** The scalar columns written through the [defaults] of [update_or_create]. *)
Record movie_fields := mk_fields {
  title : string;
  overview : string;
  poster_path : string;
  release_date : option string;
  popularity : Z;
  vote_average : Z }.

(** A Movie row together with its many-to-many genre links. *)
Record movie_row := mk_row {
  m_id : Z;                 (* Movie.id, UUID primary key *)
  tmdb_id : Z;              (* Movie.tmdb_id, unique *)
  m_fields : movie_fields;
  m_genres : gset Z;        (* Movie.genres *)
  created_at : Z;
  updated_at : Z }.

Record store := mk_store {
  movies : list movie_row;          (* Movie table, in table order *)
  genres : gmap Z string }.         (* Genre table: id -> name *)

Global Instance movie_fields_eq_dec : EqDecision movie_fields.
Proof. solve_decision. Defined.
Global Instance movie_row_eq_dec : EqDecision movie_row.
Proof. solve_decision. Defined.

(** Schema constraints enforced by the database: the primary key [id] and
    the [unique=True] column [tmdb_id]. *)
Definition store_wf (s : store) : Prop :=
  NoDup (map m_id (movies s)) /\ NoDup (map tmdb_id (movies s)).

(** Rows of the Movie table with a given [tmdb_id]. *)
Definition rows_with_tmdb (tid : Z) (s : store) : list movie_row :=
  filter (fun r => tmdb_id r = tid) (movies s).

Definition with_fields (r : movie_row) (f : movie_fields) (now : Z) : movie_row :=
  mk_row (m_id r) (tmdb_id r) f (m_genres r) (created_at r) now.

Definition with_genres (r : movie_row) (gs : gset Z) : movie_row :=
  mk_row (m_id r) (tmdb_id r) (m_fields r) gs (created_at r) (updated_at r).

(** The row [r] written over the row with the same primary key. *)
Definition replace_pk (r x : movie_row) : movie_row :=
  if decide (m_id x = m_id r) then r else x.

(** [Model.save()] of an existing row: [UPDATE ... WHERE id = pk]. *)
Definition save_row (r : movie_row) (s : store) : store :=
  mk_store (map (replace_pk r) (movies s)) (genres s).

(** A UUID not used by any row. *)
Definition fresh_uuid (s : store) : Z :=
  1 + foldr Z.max 0 (map m_id (movies s)).

(** ** Movie upsert (core/utils.py) *)

Section Upsert.

Variable accepts : movie_fields -> bool.

(** [Movie.objects.update_or_create(tmdb_id=tid, defaults=defs)]: one
    [get] under [select_for_update]; [DoesNotExist] creates the row,
    [MultipleObjectsReturned] and a rejected write raise ([None]). *)
Definition update_or_create (now tid : Z) (defs : movie_fields) (s : store)
  : option (movie_row * bool * store) :=
  match rows_with_tmdb tid s with
  | [] =>
      if accepts defs then
        let r := mk_row (fresh_uuid s) tid defs ∅ now now in
        Some (r, true, mk_store (movies s ++ [r]) (genres s))
      else None
  | [r] =>
      if accepts defs then
        let r' := with_fields r defs now in
        Some (r', false, save_row r' s)
      else None
  | _ => None
  end.

(** The [defaults] dict of the upsert. *)
Definition movie_defaults (d : payload) : movie_fields :=
  mk_fields
    (default "No Title Provided" (p_title d))
    (default "" (p_overview d))
    (default "" (p_poster_path d))
    (match p_release_date d with
     | Some s => if String.eqb s "" then None else Some s  (* `or None` *)
     | None => None
     end)
    (default 0 (p_popularity d))
    (default 0 (p_vote_average d)).

(** [genre_ids_from_tmdb]: [genre_ids] of list endpoints, or the ids of
    the [genres] list of detail endpoints when [genre_ids] is empty. *)
Definition genre_ids_from_tmdb (d : payload) : list Z :=
  match default [] (p_genre_ids d) with
  | [] =>
      match p_genres d with
      | Some ((_ :: _) as gs) => map ge_id gs
      | _ => []
      end
  | ids => ids
  end.

(** [Genre.objects.filter(id__in=ids)]. *)
Definition genre_filter (ids : list Z) (s : store) : gset Z :=
  filter (fun g => g ∈ ids) (dom (genres s)).

(** [movie.genres.add( *qs)]: links are only added. *)
Definition add_genres (movie : movie_row) (qs : gset Z) (s : store)
  : movie_row * store :=
  let movie' := with_genres movie (m_genres movie ∪ qs) in
  (movie', save_row movie' s).

(** Python truthiness of [tmdb_movie_data.get('id')]. *)
Definition id_truthy (o : option Z) : option Z :=
  match o with
  | Some z => if Z.eqb z 0 then None else Some z
  | None => None
  end.

(** [save_movie_and_genres_to_db(tmdb_movie_data)]; [now] is the clock read
    by [auto_now]/[auto_now_add]. *)
Definition save_movie_and_genres_to_db (now : Z) (inp : option payload) (s : store)
  : option movie_row * store :=
  match inp with
  | None => (None, s)
  | Some d =>
      match id_truthy (p_id d) with
      | None => (None, s)
      | Some tid =>
          match update_or_create now tid (movie_defaults d) s with
          | None => (None, s)
          | Some (movie, _, s1) =>
              match genre_ids_from_tmdb d with
              | [] => (Some movie, s1)
              | ids =>
                  let '(movie', s2) := add_genres movie (genre_filter ids s1) s1 in
                  (Some movie', s2)
              end
          end
      end
  end.

End Upsert.

(** The genre links a row for [tid] had before an upsert (none for a new row). *)
Definition old_genres (tid : Z) (s : store) : gset Z :=
  match rows_with_tmdb tid s with
  | [r] => m_genres r
  | _ => ∅
  end.

(** The row with its [auto_now] timestamp set to [t], all else unchanged. *)
Definition touch (r : movie_row) (t : Z) : movie_row := with_fields r (m_fields r) t.

(** Small concrete data used by the examples and witnesses. *)
Definition all_ok (_ : movie_fields) : bool := true.

Definition pl (id : option Z) (ids : list Z) : payload :=
  mk_payload id (Some "Inception") None None (Some "") (Some 90) (Some 8) (Some ids) None.

Definition store0 : store :=
  mk_store [] (<[28 := "Action"]> (<[12 := "Adventure"]> ∅)).

(** ** JSON values and the response envelope (core/views.py) *)

Set Warnings "-register-all".

Inductive json :=
| JNull
| JBool (b : bool)
| JNum (z : Z)
| JStr (s : string)
| JArr (l : list json)
| JObj (kvs : list (string * json)).

(** Python truthiness of a decoded JSON value ([if cached_data:]). *)
Definition json_truthy (j : json) : bool :=
  match j with
  | JNull => false
  | JBool b => b
  | JNum z => negb (Z.eqb z 0)
  | JStr s => negb (String.eqb s "")
  | JArr [] | JObj [] => false
  | JArr _ | JObj _ => true
  end.

(** A DRF [Response]: its status code and its [.data]. *)
Record response := mk_response { resp_status : Z; resp_data : json }.

Definition success_response (data : json) (message : string) (status_code : Z)
  : response :=
  mk_response status_code
    (JObj [("status", JStr "success"); ("message", JStr message); ("data", data)]).

Definition error_response (message code : string) (status_code : Z) (details : json)
  : response :=
  mk_response status_code
    (JObj [("status", JStr "error"); ("message", JStr message);
           ("code", JStr code); ("details", details)]).

Definition default_message : string := "Operation successful".

(** [d.get(k)] on a dict given by its items. *)
Fixpoint dict_get (k : string) (kvs : list (string * json)) : option json :=
  match kvs with
  | [] => None
  | (k', v) :: kvs' => if String.eqb k k' then Some v else dict_get k kvs'
  end.

(** The value under ["data"] of an envelope. *)
Definition envelope_data (j : json) : option json :=
  match j with
  | JObj kvs => dict_get "data" kvs
  | _ => None
  end.

(** ** Serializers (core/serializers.py) *)

(** The genre links of the row with primary key [m_id m] as stored now
    ([movie.genres.all()] is a query at serialization time). *)
Definition current_links (s : store) (m : movie_row) : gset Z :=
  match list_find (fun x => m_id x = m_id m) (movies s) with
  | Some (_, r) => m_genres r
  | None => ∅
  end.

(** [GenreSerializer(movie.genres.all(), many=True).data]. *)
Definition serialize_genres (s : store) (gs : gset Z) : json :=
  JArr (omap (fun g => (fun n => JObj [("id", JNum g); ("name", JStr n)])
                         <$> genres s !! g) (elements gs)).

(** [MovieSerializer(movie).data]. *)
Definition serialize_movie (s : store) (m : movie_row) : json :=
  let f := m_fields m in
  JObj [("id", JNum (m_id m)); ("tmdb_id", JNum (tmdb_id m));
        ("title", JStr (title f)); ("overview", JStr (overview f));
        ("poster_path", JStr (poster_path f));
        ("release_date", match release_date f with Some r => JStr r | None => JNull end);
        ("popularity", JNum (popularity f)); ("vote_average", JNum (vote_average f));
        ("genres", serialize_genres s (current_links s m))].

(** [MovieSerializer(None).data] is [get_initial()]: the initial values of
    the writable fields (title, overview, poster_path, release_date). *)
Definition serialize_movie_opt (s : store) (o : option movie_row) : json :=
  match o with
  | Some m => serialize_movie s m
  | None => JObj [("title", JStr ""); ("overview", JStr "");
                  ("poster_path", JStr ""); ("release_date", JNull)]
  end.

Definition serialize_movies (s : store) (ms : list movie_row) : json :=
  JArr (map (serialize_movie s) ms).

(** ** Provider client (core/utils.py) *)

Inductive endpoint :=
| EMovie (tid : Z)                   (* /movie/{id} *)
| ETrending                          (* /trending/movie/week *)
| ERecommendations (tid : Z)         (* /movie/{id}/recommendations *)
| ESearch (query : string)           (* /search/movie?query= *)
| EGenreList.                        (* /genre/movie/list *)

(** The decoded JSON dict of a 2xx answer, by shape. *)
Inductive tmdb_body :=
| BMovie (p : payload)
| BList (results : option (list payload)) (other_keys : bool)
| BGenres (gs : option (list genre_entry)).

(** What [requests.get(...)] followed by [raise_for_status()] and [json()]
    gives. *)
Inductive http_outcome :=
| HOk (b : tmdb_body)
| HHttpError (code : Z)
| HConnectionError
| HTimeout
| HOtherError.

Record provider := mk_provider {
  api_key_set : bool;                 (* settings.TMDB_API_KEY truthy *)
  tmdb : endpoint -> http_outcome }.

Definition payload_nonempty (p : payload) : bool :=
  match p with
  | mk_payload None None None None None None None None None => false
  | _ => true
  end.

(** Truthiness of the decoded dict. *)
Definition body_truthy (b : tmdb_body) : bool :=
  match b with
  | BMovie p => payload_nonempty p
  | BList r o => bool_decide (is_Some r) || o
  | BGenres g => bool_decide (is_Some g)
  end.

Definition empty_payload : payload :=
  mk_payload None None None None None None None None None.

(** The dict seen as a movie dict by [save_movie_and_genres_to_db]. *)
Definition body_payload (b : tmdb_body) : payload :=
  match b with BMovie p => p | _ => empty_payload end.

(** [data.get('results', [])]. *)
Definition body_results (b : tmdb_body) : list payload :=
  match b with BList (Some r) _ => r | _ => [] end.

Section Provider.

Variable P : provider.

(** [_make_tmdb_request(endpoint, params)]: every failure is logged and
    becomes [None]. *)
Definition _make_tmdb_request (e : endpoint) : option tmdb_body :=
  if api_key_set P then
    match tmdb P e with
    | HOk b => Some b
    | HHttpError _ | HConnectionError | HTimeout | HOtherError => None
    end
  else None.

Definition get_tmdb_movie_details (tid : Z) : option tmdb_body :=
  _make_tmdb_request (EMovie tid).

Definition fetch_movie_data_from_tmdb (tid : Z) : option tmdb_body :=
  _make_tmdb_request (EMovie tid).

(** [data.get('results', []) if data else []]. *)
Definition list_results (o : option tmdb_body) : list payload :=
  match o with
  | Some b => if body_truthy b then body_results b else []
  | None => []
  end.

Definition get_tmdb_trending_movies : list payload :=
  list_results (_make_tmdb_request ETrending).

Definition get_tmdb_movie_recommendations (tid : Z) : list payload :=
  list_results (_make_tmdb_request (ERecommendations tid)).

Definition get_tmdb_movie_search_results (query : string) : list payload :=
  list_results (_make_tmdb_request (ESearch query)).

(** The genre-list fetch of [seed_initial_genres]. *)
Definition fetch_genre_list : option tmdb_body := _make_tmdb_request EGenreList.

End Provider.

(** ** Request state: cache, store, interactions *)

Inductive interaction_type := LIKED | BOOKMARKED | WATCHED.

Global Instance interaction_type_eq_dec : EqDecision interaction_type.
Proof. solve_decision. Defined.

(** A UserMovieInteraction row. *)
Record interaction := mk_interaction {
  i_id : Z; i_user : Z; i_movie : Z; i_type : interaction_type }.

(** Observable effects of a request, most recent first. *)
Inductive event :=
| EvProviderCall (e : endpoint)
| EvStoreRead
| EvStoreWrite
| EvCacheSet (key : string).

Record world := mk_world {
  w_cache : gmap string (json * Z);      (* value and timeout *)
  w_store : store;
  w_interactions : list interaction;
  w_log : list event;
  w_now : Z }.

Definition cache_get (k : string) (w : world) : option json :=
  fst <$> w_cache w !! k.

Definition cache_set (k : string) (v : json) (ttl : Z) (w : world) : world :=
  mk_world (<[k := (v, ttl)]> (w_cache w)) (w_store w) (w_interactions w)
           (EvCacheSet k :: w_log w) (w_now w).

Definition log_event (e : event) (w : world) : world :=
  mk_world (w_cache w) (w_store w) (w_interactions w) (e :: w_log w) (w_now w).

Definition set_store (s : store) (w : world) : world :=
  mk_world (w_cache w) s (w_interactions w) (w_log w) (w_now w).

(** ** Recommendation query helpers *)

(** [Movie.objects.get(id=mid)] as an option. *)
Definition find_movie (mid : Z) (s : store) : option movie_row :=
  snd <$> list_find (fun x => m_id x = mid) (movies s).

(** [liked_genres_ids]: the genres of the movies the user LIKED. *)
Definition liked_genres_ids (u : Z) (w : world) : gset Z :=
  foldl (fun acc i =>
           if decide (i_user i = u /\ i_type i = LIKED) then
             match find_movie (i_movie i) (w_store w) with
             | Some m => acc ∪ m_genres m
             | None => acc
             end
           else acc) ∅ (w_interactions w).

(** [request.user.interactions.values_list('movie__id', flat=True)]. *)
Definition interacted_movie_ids (u : Z) (w : world) : list Z :=
  map i_movie (filter (fun i => i_user i = u) (w_interactions w)).

(** The join of [Movie.objects.filter(genres__id__in=lg)]: one result row
    per matching genre link. *)
Definition genre_join (lg : gset Z) (ms : list movie_row) : list movie_row :=
  concat (map (fun m => map (fun _ => m) (filter (fun g => g ∈ lg) (elements (m_genres m))))
              ms).

(** [order_by('-popularity')]: ties are left to the database; a stable
    merge sort is one admissible order. *)
Definition pop_desc (a b : movie_row) : Prop :=
  popularity (m_fields b) <= popularity (m_fields a).

Global Instance pop_desc_dec : RelDecision pop_desc.
Proof. intros a b. unfold pop_desc. apply Z.le_dec. Defined.

(** [.filter(...).exclude(id__in=excl).distinct().order_by('-popularity')[:20]]. *)
Definition recommended_movies (lg : gset Z) (excl : list Z) (ms : list movie_row)
  : list movie_row :=
  take 20 (merge_sort pop_desc
             (remove_dups (filter (fun m => m_id m ∉ excl) (genre_join lg ms)))).

(** ** Python strings and [str.strip()] *)

(** A Python [str] is represented by its UTF-8 encoding, the bytes of a
    Rocq [string]; Django decodes the request data before a view sees it,
    so every string the views receive is the encoding of a code-point
    sequence. [cont_bits] reads a continuation byte (two high bits 10). *)
Definition cont_bits (c : ascii) : option Z :=
  let n := Z.of_nat (nat_of_ascii c) in
  if (128 <=? n) && (n <? 192) then Some (n - 128) else None.

(** UTF-8 decoding (shortest forms only, no surrogates, at most U+10FFFF);
    [None] on bytes that are not a valid encoding. *)
Fixpoint utf8_decode (l : list ascii) : option (list Z) :=
  match l with
  | [] => Some []
  | c :: l1 =>
      let n := Z.of_nat (nat_of_ascii c) in
      if n <? 128 then cons n <$> utf8_decode l1
      else if (192 <=? n) && (n <? 224) then
        match l1 with
        | c1 :: l2 =>
            match cont_bits c1 with
            | Some x1 =>
                let cp := (n - 192) * 64 + x1 in
                if 128 <=? cp then cons cp <$> utf8_decode l2 else None
            | None => None
            end
        | [] => None
        end
      else if (224 <=? n) && (n <? 240) then
        match l1 with
        | c1 :: c2 :: l3 =>
            match cont_bits c1, cont_bits c2 with
            | Some x1, Some x2 =>
                let cp := (n - 224) * 4096 + x1 * 64 + x2 in
                if (2048 <=? cp) && negb ((55296 <=? cp) && (cp <=? 57343))
                then cons cp <$> utf8_decode l3 else None
            | _, _ => None
            end
        | _ => None
        end
      else if (240 <=? n) && (n <? 248) then
        match l1 with
        | c1 :: c2 :: c3 :: l4 =>
            match cont_bits c1, cont_bits c2, cont_bits c3 with
            | Some x1, Some x2, Some x3 =>
                let cp := (n - 240) * 262144 + x1 * 4096 + x2 * 64 + x3 in
                if (65536 <=? cp) && (cp <=? 1114111)
                then cons cp <$> utf8_decode l4 else None
            | _, _, _ => None
            end
        | _ => None
        end
      else None
  end.

Definition byte_of (z : Z) : ascii := ascii_of_nat (Z.to_nat z).

(** The UTF-8 encoding of one code point. *)
Definition utf8_encode_cp (cp : Z) : list ascii :=
  if cp <? 128 then [byte_of cp]
  else if cp <? 2048 then [byte_of (192 + cp / 64); byte_of (128 + cp mod 64)]
  else if cp <? 65536 then
    [byte_of (224 + cp / 4096); byte_of (128 + (cp / 64) mod 64); byte_of (128 + cp mod 64)]
  else
    [byte_of (240 + cp / 262144); byte_of (128 + (cp / 4096) mod 64);
     byte_of (128 + (cp / 64) mod 64); byte_of (128 + cp mod 64)].

Definition utf8_encode (cps : list Z) : list ascii := concat (map utf8_encode_cp cps).

(** [str.isspace] on one code point: the characters of bidirectional
    class WS, B or S or of category Zs. *)
Definition py_isspace (cp : Z) : bool :=
  ((9 <=? cp) && (cp <=? 13)) || ((28 <=? cp) && (cp <=? 32)) ||
  (cp =? 133) || (cp =? 160) || (cp =? 5760) || ((8192 <=? cp) && (cp <=? 8202)) ||
  (cp =? 8232) || (cp =? 8233) || (cp =? 8239) || (cp =? 8287) || (cp =? 12288).

Fixpoint lstrip_list (l : list Z) : list Z :=
  match l with
  | [] => []
  | c :: l' => if py_isspace c then lstrip_list l' else l
  end.

(** [str.strip()]: on the code points, leading and trailing [isspace]
    characters removed. *)
Definition py_strip (s : string) : string :=
  match utf8_decode (list_ascii_of_string s) with
  | Some cps => string_of_list_ascii (utf8_encode (reverse (lstrip_list (reverse (lstrip_list cps)))))
  | None => s
  end.

(** [len()]: the number of code points. *)
Definition py_len (s : string) : nat :=
  match utf8_decode (list_ascii_of_string s) with
  | Some cps => length cps
  | None => String.length s
  end.

(** ['\x00' in s]; in UTF-8 the zero byte only encodes U+0000. *)
Definition has_null (s : string) : bool :=
  existsb (fun c => Ascii.eqb c zero) (list_ascii_of_string s).

(** Two whitespace characters outside ASCII, in UTF-8: U+00A0 NO-BREAK
    SPACE and U+3000 IDEOGRAPHIC SPACE. *)
Definition nbsp : string := String (ascii_of_nat 194) (String (ascii_of_nat 160) EmptyString).
Definition ideographic_space : string :=
  String (ascii_of_nat 227) (String (ascii_of_nat 128) (String (ascii_of_nat 128) EmptyString)).

Definition detail_cache_key (tid : Z) : string := "movie_detail_" +:+ pretty tid.

(** ** Views (core/views.py) *)

Section Views.

Variable P : provider.
Variable accepts : movie_fields -> bool.

(** One call of [save_movie_and_genres_to_db] from a view. *)
Definition upsert (p : payload) (w : world) : option movie_row * world :=
  let '(o, s') := save_movie_and_genres_to_db accepts (w_now w) (Some p) (w_store w) in
  (o, set_store s' (log_event EvStoreWrite w)).

(** The [for ... : movie_obj = save...; if movie_obj: append] loops. *)
Fixpoint upsert_all (ps : list payload) (w : world) : list movie_row * world :=
  match ps with
  | [] => ([], w)
  | p :: ps' =>
      let '(o, w1) := upsert p w in
      let '(ms, w2) := upsert_all ps' w1 in
      (match o with Some m => m :: ms | None => ms end, w2)
  end.

Definition trending_miss (w : world) : response * world :=
  let w1 := log_event (EvProviderCall ETrending) w in
  match get_tmdb_trending_movies P with
  | [] => (error_response "Could not fetch trending movies." "TMDB_API_ERROR" 503 JNull, w1)
  | data =>
      let '(local, w2) := upsert_all data w1 in
      let ser := serialize_movies (w_store w2) local in
      (success_response ser default_message 200, cache_set "trending_movies" ser 3600 w2)
  end.

(** [TrendingMoviesView.get]. *)
Definition TrendingMoviesView_get (w : world) : response * world :=
  match cache_get "trending_movies" w with
  | Some v =>
      if json_truthy v then (success_response v default_message 200, w)
      else trending_miss w
  | None => trending_miss w
  end.

Definition detail_miss (tid : Z) (w : world) : response * world :=
  let key := detail_cache_key tid in
  let w1 := log_event EvStoreRead w in
  match rows_with_tmdb tid (w_store w1) with
  | [movie] =>
      let data := serialize_movie (w_store w1) movie in
      (success_response data default_message 200, cache_set key data 86400 w1)
  | [] =>
      let w2 := log_event (EvProviderCall (EMovie tid)) w1 in
      let not_found :=
        (error_response ("Movie with TMDb ID " +:+ pretty tid +:+ " not found.")
                        "TMDB_MOVIE_NOT_FOUND" 404 JNull, w2) in
      match get_tmdb_movie_details P tid with
      | Some b =>
          if body_truthy b then
            let '(movie_obj, w3) := upsert (body_payload b) w2 in
            let data := serialize_movie_opt (w_store w3) movie_obj in
            (success_response data default_message 200, cache_set key data 86400 w3)
          else not_found
      | None => not_found
      end
  | _ => (mk_response 500 JNull, w1)   (* MultipleObjectsReturned is not caught *)
  end.

(** [MovieDetailByTmdbIdView.get]. *)
Definition MovieDetailByTmdbIdView_get (tid : Z) (w : world) : response * world :=
  match cache_get (detail_cache_key tid) w with
  | Some v =>
      if json_truthy v then (success_response v default_message 200, w)
      else detail_miss tid w
  | None => detail_miss tid w
  end.

(** [MovieSearchView.get]; [query_param] is [request.query_params.get('query')]. *)
Definition MovieSearchView_get (query_param : option string) (w : world)
  : response * world :=
  let query := py_strip (default "" query_param) in
  if String.eqb query "" then
    (error_response "Search query parameter is required." "MISSING_QUERY" 400 JNull, w)
  else
    let w1 := log_event (EvProviderCall (ESearch query)) w in
    match get_tmdb_movie_search_results P query with
    | [] => (success_response (JArr []) "No movies found for your query." 200, w1)
    | rs =>
        let '(local, w2) := upsert_all rs w1 in
        (success_response (serialize_movies (w_store w2) local) default_message 200, w2)
    end.

(** [UserRecommendationsView.get] for the authenticated user [u]. *)
Definition UserRecommendationsView_get (u : Z) (w : world) : response * world :=
  let lg := liked_genres_ids u w in
  if decide (lg = ∅) then
    let '(r, w1) := TrendingMoviesView_get w in
    (success_response (resp_data r)
       "No specific preferences yet, showing trending movies." 200, w1)
  else
    let w1 := log_event EvStoreRead w in
    let ms := recommended_movies lg (interacted_movie_ids u w) (movies (w_store w)) in
    (success_response (serialize_movies (w_store w) ms)
       "Personalized recommendations generated." 200, w1).

End Views.

(** ** Admin permission classes *)

(** [request.user]: an authenticated User or the AnonymousUser. *)
Record user := mk_user {
  u_is_authenticated : bool;
  u_is_superuser : bool;
  u_roles : list string }.

Module Permissions.
(** [core.permissions.IsAdminUser.has_permission]. *)
Definition IsAdminUser_has_permission (u : user) : bool :=
  u_is_authenticated u && existsb (String.eqb "admin") (u_roles u).
End Permissions.

Module Views.
(** The [IsAdminUser] class defined in core/views.py, which rebinds the
    name imported from core.permissions. *)
Definition IsAdminUser_has_permission (u : user) : bool :=
  u_is_authenticated u && u_is_superuser u.

(** [permission_classes = [IsAdminUser]] of AdminUserListView,
    AdminUserDetailView and AdminRoleAssignmentView, which are defined
    after that rebinding. *)
Definition admin_endpoint_permission (u : user) : bool :=
  IsAdminUser_has_permission u.
End Views.

(** ** Genre seeding (core/utils.py) *)

(** [genres_data.get('genres')]: the ['genres'] list of the decoded dict
    (the paged list answers modelled by [BList] have no ['genres'] key).
    Each entry is a dict with both ['id'] and ['name']. *)
Definition body_genres (b : tmdb_body) : option (list genre_entry) :=
  match b with
  | BGenres g => g
  | BMovie p => p_genres p
  | BList _ _ => None
  end.

(** Another Genre row already holds the name [n] ([Genre.name] is unique). *)
Definition genre_name_taken (gid : Z) (n : string) (gs : gmap Z string) : bool :=
  existsb (fun kv => negb (Z.eqb kv.1 gid) && String.eqb kv.2 n) (map_to_list gs).

(** The outcome of [seed_initial_genres()]: its return value, or an
    exception that leaves the function. *)
Inductive seed_result := SeedReturned (b : bool) | SeedRaised.

Section Seed.

Variable P : provider.
(** Whether the database accepts a value of the [Genre.name] column
    (max_length=255 where the engine enforces it). *)
Variable genre_name_ok : string -> bool.

(** [Genre.objects.update_or_create(id=gid, defaults={'name': n})]: the
    [UPDATE] or [INSERT] fails with an IntegrityError when another row has
    the name [n], or when the column value is refused; it runs in its own
    atomic block, so a failure writes nothing. *)
Definition genre_update_or_create (gid : Z) (n : string) (gs : gmap Z string)
  : option (gmap Z string) :=
  if genre_name_ok n && negb (genre_name_taken gid n gs) then Some (<[gid := n]> gs)
  else None.

(** The [for genre_data in genres_data['genres']] loop: [false] when an
    [update_or_create] raised, with the rows written before it kept
    (autocommit, no enclosing transaction). *)
Fixpoint seed_loop (l : list genre_entry) (gs : gmap Z string) : bool * gmap Z string :=
  match l with
  | [] => (true, gs)
  | e :: l' =>
      match genre_update_or_create (ge_id e) (ge_name e) gs with
      | Some gs' => seed_loop l' gs'
      | None => (false, gs)
      end
  end.

(** [seed_initial_genres()]; the exception of a failed write is not caught. *)
Definition seed_initial_genres (s : store) : seed_result * store :=
  match fetch_genre_list P with
  | Some b =>
      match (if body_truthy b then body_genres b else None) with
      | Some ((_ :: _) as l) =>
          let '(ok, gs) := seed_loop l (genres s) in
          (if ok then SeedReturned true else SeedRaised, mk_store (movies s) gs)
      | _ => (SeedReturned false, s)
      end
  | None => (SeedReturned false, s)
  end.

End Seed.

(** ** Remaining movie views (core/views.py) *)

(** The exceptions the movie views distinguish. *)
Inductive py_exc := Http404 | DoesNotExist.

(** [get_object_or_404(Model, ...)]: the lookup's [DoesNotExist] is
    re-raised as [django.http.Http404], a plain [Exception] subclass. *)
Definition get_object_or_404 {A} (o : option A) : A + py_exc :=
  match o with Some a => inl a | None => inr Http404 end.

Section Views2.

Variable P : provider.
Variable accepts : movie_fields -> bool.

(** [MovieDetailView.get(request, movie_id)]. *)
Definition MovieDetailView_get (mid : Z) (w : world) : response * world :=
  let w1 := log_event EvStoreRead w in
  match get_object_or_404 (find_movie mid (w_store w)) with
  | inl movie => (success_response (serialize_movie (w_store w) movie) default_message 200, w1)
  | inr DoesNotExist =>
      (error_response "Movie not found." "MOVIE_NOT_FOUND" 404 JNull, w1)
  | inr _ =>
      (error_response "An unexpected error occurred while fetching movie details."
                      "SERVER_ERROR" 500 JNull, w1)
  end.

(** [MovieRecommendationsView.get(request, movie_id)]. *)
Definition MovieRecommendationsView_get (mid : Z) (w : world) : response * world :=
  let w1 := log_event EvStoreRead w in
  match get_object_or_404 (find_movie mid (w_store w)) with
  | inl base_movie =>
      let w2 := log_event (EvProviderCall (ERecommendations (tmdb_id base_movie))) w1 in
      match get_tmdb_movie_recommendations P (tmdb_id base_movie) with
      | [] => (success_response (JArr []) "No recommendations found for this movie." 200, w2)
      | rs =>
          let '(local, w3) := upsert_all accepts rs w2 in
          (success_response (serialize_movies (w_store w3) local) default_message 200, w3)
      end
  | inr DoesNotExist =>
      (error_response "Base movie for recommendations not found." "MOVIE_NOT_FOUND" 404 JNull, w1)
  | inr _ =>
      (error_response "An unexpected error occurred while fetching recommendations."
                      "SERVER_ERROR" 500 JNull, w1)
  end.

End Views2.

(** ** User interaction views (core/views.py, core/serializers.py) *)

(** The choices of [UserMovieInteraction.InteractionType]. *)
Definition parse_interaction_type (s : string) : option interaction_type :=
  if String.eqb s "LIKED" then Some LIKED
  else if String.eqb s "BOOKMARKED" then Some BOOKMARKED
  else if String.eqb s "WATCHED" then Some WATCHED
  else None.

Definition interaction_type_str (t : interaction_type) : string :=
  match t with LIKED => "LIKED" | BOOKMARKED => "BOOKMARKED" | WATCHED => "WATCHED" end.

(** The next value of the AutoField [UserMovieInteraction.id]. *)
Definition fresh_interaction_id (l : list interaction) : Z :=
  1 + foldr Z.max 0 (map i_id l).

Definition set_interactions (l : list interaction) (w : world) : world :=
  mk_world (w_cache w) (w_store w) l (w_log w) (w_now w).

(** [UserMovieInteractionSerializer(instance).data]; [created_at] is the
    clock value [now] set by [auto_now_add]. *)
Definition serialize_interaction (movie : movie_row) (i : interaction) (now : Z) : json :=
  JObj [("id", JNum (i_id i)); ("movie", JNum (m_id movie));
        ("movie_title", JStr (title (m_fields movie)));
        ("interaction_type", JStr (interaction_type_str (i_type i)));
        ("created_at", JNum now)].

(** [serializer.errors] of [UserMovieInteractionSerializer(data=...)], each
    error given by its DRF error code. [movie_in] is the ['movie'] value
    ([None] when absent), [type_in] the ['interaction_type'] value. The
    ['user'] key the view adds is not a field of the serializer. *)
Definition interaction_errors (movie_in : option Z) (type_in : option string) (s : store)
  : list (string * json) :=
  match movie_in with
  | None => [("movie", JArr [JStr "required"])]
  | Some m =>
      match find_movie m s with
      | Some _ => []
      | None => [("movie", JArr [JStr "does_not_exist"])]
      end
  end ++
  match type_in with
  | None => [("interaction_type", JArr [JStr "required"])]
  | Some t =>
      match parse_interaction_type t with
      | Some _ => []
      | None => [("interaction_type", JArr [JStr "invalid_choice"])]
      end
  end.

(** [UserInteractionsView.post] for the authenticated user [u]. No
    [UniqueTogetherValidator] is generated (['user'] is not a serializer
    field), so a repeated triple reaches the database, whose
    [unique_together] constraint raises IntegrityError. *)
Definition UserInteractionsView_post (u : Z) (movie_in : option Z) (type_in : option string)
    (w : world) : response * world :=
  match movie_in ≫= (fun m => find_movie m (w_store w)), type_in ≫= parse_interaction_type with
  | Some movie, Some t =>
      if existsb (fun i => bool_decide (i_user i = u /\ i_movie i = m_id movie /\ i_type i = t))
                 (w_interactions w) then
        (error_response "This interaction already exists." "DUPLICATE_INTERACTION" 409 JNull, w)
      else
        let i := mk_interaction (fresh_interaction_id (w_interactions w)) u (m_id movie) t in
        (success_response (serialize_interaction movie i (w_now w)) "Interaction saved." 201,
         set_interactions (w_interactions w ++ [i]) w)
  | _, _ =>
      (error_response "Invalid data provided." "VALIDATION_ERROR" 400
         (JObj (interaction_errors movie_in type_in (w_store w))), w)
  end.

(** The 404 answer DRF's exception handler gives for the [Http404] of
    [get_object_or_404] on [model]: since DRF 3.15 the detail is Django's
    message (earlier versions said "Not found."; no version is pinned). *)
Definition drf_not_found (model : string) : response :=
  mk_response 404 (JObj [("detail", JStr ("No " +:+ model +:+ " matches the given query."))]).

(** [UserInteractionDetailView.delete] for the authenticated user [u]:
    [get_object_or_404(UserMovieInteraction, id=iid, user=u)], then
    [interaction.delete()]. *)
Definition UserInteractionDetailView_delete (u iid : Z) (w : world) : response * world :=
  match list_find (fun i => i_id i = iid /\ i_user i = u) (w_interactions w) with
  | Some _ =>
      (success_response JNull "Interaction deleted successfully." 204,
       set_interactions (filter (fun i => i_id i <> iid) (w_interactions w)) w)
  | None => (drf_not_found "UserMovieInteraction", w)
  end.

(** ** Accounts, registration and the admin views *)

(** A User row with its role links; [a_password] stands for the hash
    stored by [set_password]. *)
Record account := mk_account {
  a_id : Z;
  a_username : string;
  a_email : string;
  a_password : string;
  a_is_superuser : bool;
  a_roles : list string }.

(** The User table, the Role table (by name, which is unique) and the rest
    of the database. *)
Record site := mk_site {
  s_users : list account;
  s_roles : list string;
  s_world : world }.

(** [request.user] for an authenticated account. *)
Definition request_user (a : account) : user :=
  mk_user true (a_is_superuser a) (a_roles a).

(** The outcome of dispatching a request: refused by a permission class
    before the handler runs, answered by the handler, or an exception
    leaving the handler (Django's 500 page). *)
Inductive dispatch := Denied | Handled (r : response) | Raised.

Definition find_account (uid : Z) (us : list account) : option account :=
  snd <$> list_find (fun a => a_id a = uid) us.

Definition fresh_account_id (us : list account) : Z :=
  1 + foldr Z.max 0 (map a_id us).

(** [Role.objects.get_or_create(name=r)] on the Role table, and
    [user.roles.add(role)] on a user's links: nothing when present. *)
Definition roles_add (r : string) (l : list string) : list string :=
  if decide (r ∈ l) then l else l ++ [r].

(** [user.save()]-like replacement of the row with the same primary key. *)
Definition update_account (a : account) (us : list account) : list account :=
  map (fun x => if decide (a_id x = a_id a) then a else x) us.

Definition with_roles (a : account) (rs : list string) : account :=
  mk_account (a_id a) (a_username a) (a_email a) (a_password a) (a_is_superuser a) rs.

(** The validators a DRF [CharField] appends, in order, and the codes of
    those that fail (all of them are run): [MaxLengthValidator] when a
    [max_length] is given, then [ProhibitNullCharactersValidator] (the
    surrogate check cannot fail on decoded UTF-8). *)
Definition char_field_codes (max_length : option nat) (v : string) : list string :=
  match max_length with
  | Some n => if Nat.ltb n (py_len v) then ["max_length"] else []
  | None => []
  end ++ (if has_null v then ["null_characters_not_allowed"] else []).

(** A DRF [CharField] with the defaults [allow_blank=False] and
    [trim_whitespace=True] and no other validator: missing, blank after
    stripping, the failing validator codes on the stripped value, or the
    stripped value. *)
Definition drf_char_field (max_length : option nat) (inp : option string)
  : string + list string :=
  match inp with
  | None => inr ["required"]
  | Some raw =>
      let v := py_strip raw in
      if String.eqb v "" then inr ["blank"]
      else match char_field_codes max_length v with
           | [] => inl v
           | codes => inr codes
           end
  end.

(** [user.delete()]: the User row, its role links and, by
    [on_delete=models.CASCADE], its interactions. *)
Definition delete_account (uid : Z) (st : site) : site :=
  mk_site (filter (fun a => a_id a <> uid) (s_users st)) (s_roles st)
    (set_interactions (filter (fun i => i_user i <> uid) (w_interactions (s_world st)))
                      (s_world st)).

(** [AdminUserDetailView.delete]; [req] is the authenticated account, if any
    (the AnonymousUser fails [is_authenticated]). *)
Definition AdminUserDetailView_delete (req : option account) (uid : Z) (st : site)
  : dispatch * site :=
  match req with
  | Some a =>
      if Views.admin_endpoint_permission (request_user a) then
        match get_object_or_404 (find_account uid (s_users st)) with
        | inl target =>
            if Z.eqb (a_id target) (a_id a) then
              (Handled (error_response "You cannot delete your own admin account."
                          "SELF_DELETE_FORBIDDEN" 403 JNull), st)
            else
              (Handled (success_response JNull "User deleted successfully." 204),
               delete_account uid st)
        | inr _ => (Handled (drf_not_found "User"), st)
        end
      else (Denied, st)
  | None => (Denied, st)
  end.

(** [AssignRoleSerializer(data=...).errors] by DRF error code; [uid_in] is
    the parsed ['user_id'] ([None] when absent). *)
Definition assign_errors (uid_in : option Z) (role_in : option string) : list (string * json) :=
  match uid_in with None => [("user_id", JArr [JStr "required"])] | Some _ => [] end ++
  match drf_char_field (Some 50%nat) role_in with
  | inr codes => [("role_name", JArr (map JStr codes))]
  | inl _ => []
  end.

(** [AdminRoleAssignmentView.post]. *)
Definition AdminRoleAssignmentView_post (req : option account) (uid_in : option Z)
    (role_in : option string) (st : site) : dispatch * site :=
  match req with
  | Some a =>
      if Views.admin_endpoint_permission (request_user a) then
        match uid_in, drf_char_field (Some 50%nat) role_in with
        | Some uid, inl role_name =>
            match find_account uid (s_users st) with
            | Some user =>
                (Handled (success_response
                            (JObj [("user", JStr (a_username user)); ("role", JStr role_name)])
                            ("Role '" +:+ role_name +:+ "' assigned to user '" +:+
                             a_username user +:+ "' successfully.") 200),
                 mk_site (update_account (with_roles user (roles_add role_name (a_roles user)))
                                         (s_users st))
                         (roles_add role_name (s_roles st)) (s_world st))
            | None =>
                (Handled (error_response "User not found." "USER_NOT_FOUND" 404 JNull), st)
            end
        | _, _ =>
            (Handled (error_response "Invalid role assignment data." "VALIDATION_ERROR" 400
                        (JObj (assign_errors uid_in role_in))), st)
        end
      else (Denied, st)
  | None => (Denied, st)
  end.

(** The characters before the first [c], and those after it. *)
Fixpoint break_at (c : ascii) (l : list ascii) : option (list ascii * list ascii) :=
  match l with
  | [] => None
  | x :: l' =>
      if Ascii.eqb x c then Some ([], l')
      else (fun '(a, b) => (x :: a, b)) <$> break_at c l'
  end.

(** The fields of the registration request body ([None] = key absent);
    [date_of_birth] is taken absent. *)
Record register_data := mk_register_data {
  r_username : option string;
  r_email : option string;
  r_password : option string;
  r_password2 : option string }.

Section Register.

(** The Unicode-table parts of registration, not modelled: the
    [UnicodeUsernameValidator] regex of [AbstractUser.username], the
    [EmailValidator] of the email field, the NFKC normalisation
    [AbstractUser.normalize_username] applied by [create_user], and
    [str.lower()]. *)
Variable username_ok : string -> bool.
Variable email_ok : string -> bool.
Variable normalize_username : string -> string.
Variable py_lower : string -> string.

(** [BaseUserManager.normalize_email]: [email.strip().rsplit('@', 1)] and
    the domain part lowercased; unchanged without an ['@'] (in UTF-8, the
    byte of '@' only encodes '@'). *)
Definition normalize_email (e : string) : string :=
  let l := list_ascii_of_string (py_strip e) in
  match break_at "@"%char (reverse l) with
  | Some (rdomain, rname) =>
      string_of_list_ascii (reverse rname ++ ["@"%char]) +:+
      py_lower (string_of_list_ascii (reverse rdomain))
  | None => e
  end.

(** The ['username'] field: a CharField (max_length 150) with the model's
    validator and a [UniqueValidator] on [User.objects.all()], in the order
    DRF runs them: the model's validator, the UniqueValidator, then those
    of the CharField; its error codes. *)
Definition username_field (us : list account) (inp : option string) : string + list string :=
  match drf_char_field None inp with
  | inr codes => inr codes
  | inl v =>
      match (if username_ok v then [] else ["invalid"]) ++
            (if existsb (fun a => String.eqb (a_username a) v) us then ["unique"] else []) ++
            char_field_codes (Some 150%nat) v
      with
      | [] => inl v
      | codes => inr codes
      end
  end.

(** The ['email'] field: an EmailField (max_length 254) with
    [required=False] and [allow_blank=True] ([blank=True] on the model);
    [inl None] when absent; the CharField validators, then the
    EmailValidator. *)
Definition email_field (inp : option string) : option string + list string :=
  match inp with
  | None => inl None
  | Some raw =>
      let v := py_strip raw in
      if String.eqb v "" then inl (Some "")
      else match char_field_codes (Some 254%nat) v ++
                 (if email_ok v then [] else ["invalid"]) with
           | [] => inl (Some v)
           | codes => inr codes
           end
  end.

Definition field_error {A} (name : string) (r : A + list string) : list (string * json) :=
  match r with inl _ => [] | inr codes => [(name, JArr (map JStr codes))] end.

Definition registration_failed (details : list (string * json)) : dispatch :=
  Handled (error_response "Registration failed due to invalid data." "VALIDATION_ERROR" 400
             (JObj details)).

(** [register_user(request)]: [is_valid()] (the fields, then [validate]),
    then [UserRegisterSerializer.create]: [validated_data['email']] raises
    KeyError when no email was sent; [create_user] normalizes the email
    and the username (NFKC) and saves a non-superuser, which raises
    IntegrityError when the normalized username is taken (nothing is
    written); then the ['user'] role is got or created and linked.
    [a_password] holds the password [make_password] hashes. *)
Definition register_user (d : register_data) (st : site) : dispatch * site :=
  let fu := username_field (s_users st) (r_username d) in
  let fe := email_field (r_email d) in
  let fp := drf_char_field None (r_password d) in
  let fp2 := drf_char_field None (r_password2 d) in
  match fu, fe, fp, fp2 with
  | inl username, inl email, inl password, inl password2 =>
      if negb (String.eqb password password2) then
        (registration_failed [("password", JArr [JStr "invalid"])], st)
      else
        match email with
        | None => (Raised, st)
        | Some e =>
            let name := normalize_username username in
            if existsb (fun a => String.eqb (a_username a) name) (s_users st) then
              (Handled (error_response "User with this email or username already exists."
                          "DUPLICATE_USER" 409 JNull), st)
            else
              let a := mk_account (fresh_account_id (s_users st)) name (normalize_email e)
                                  password false ["user"] in
              (Handled (success_response
                          (JObj [("username", JStr (a_username a)); ("email", JStr (a_email a))])
                          "User registered successfully. Please log in." 201),
               mk_site (s_users st ++ [a]) (roles_add "user" (s_roles st)) (s_world st))
        end
  | _, _, _, _ =>
      (registration_failed (field_error "username" fu ++ field_error "email" fe ++
                            field_error "password" fp ++ field_error "password2" fp2), st)
  end.

End Register.

(** ** Table invariants and request predicates *)

(** One [update_or_create] of the seeding loop on the Genre table. *)
Definition insert_entry (gs : gmap Z string) (e : genre_entry) : gmap Z string :=
  <[ge_id e := ge_name e]> gs.

(** The Genre-table constraint [name unique=True]. *)
Definition genre_names_unique (gs : gmap Z string) : Prop :=
  forall k1 k2 n, gs !! k1 = Some n -> gs !! k2 = Some n -> k1 = k2.

(** A Movie row with internal id [mid] and TMDb id [tid] is in the table. *)
Definition has_row (mid tid : Z) (s : store) : Prop :=
  exists r, r ∈ movies s /\ m_id r = mid /\ tmdb_id r = tid.

(** The primary key of UserMovieInteraction and its [unique_together]. *)
Definition interactions_wf (l : list interaction) : Prop :=
  NoDup (map i_id l) /\ NoDup (map (fun i => (i_user i, i_movie i, i_type i)) l).

(** The primary key and the unique [username] of User, and the unique
    [name] of Role. *)
Definition site_wf (st : site) : Prop :=
  NoDup (map a_id (s_users st)) /\ NoDup (map a_username (s_users st)) /\ NoDup (s_roles st).

(** The requester passes [permission_classes = [IsAdminUser]]. *)
Definition is_admin_request (req : option account) : bool :=
  match req with Some a => a_is_superuser a | None => false end.

(** ** Concrete states used by the examples and witnesses *)

Definition d0 : payload := pl (Some 27205) [28; 99].

Definition store1 : store := snd (save_movie_and_genres_to_db all_ok 5 (Some d0) store0).

Definition d1 : payload :=
  mk_payload (Some 27205) (Some "Inception (2010)") None None (Some "2010-07-16")
             (Some 95) (Some 8) None (Some [mk_genre_entry 12 "Adventure"]).

(** A provider answering trending with two movies and detail 550. *)
Definition P0 : provider :=
  mk_provider true (fun e =>
    match e with
    | ETrending => HOk (BList (Some [d0; pl (Some 11) [12]]) true)
    | EMovie 550 => HOk (BMovie (pl (Some 550) [28]))
    | _ => HTimeout
    end).

Definition w0 : world := mk_world ∅ store0 [] [] 1.

Definition mf (pop : Z) : movie_fields := mk_fields "t" "" "" None pop 0.

Definition store_rec : store :=
  mk_store [mk_row 1 100 (mf 50) {[28]} 0 0; mk_row 2 200 (mf 70) {[28; 12]} 0 0;
            mk_row 3 300 (mf 90) {[12]} 0 0; mk_row 4 400 (mf 60) {[28]} 0 0]
           (genres store0).

(** User 1 liked movie 1 and bookmarked movie 4. *)
Definition w_rec : world :=
  mk_world ∅ store_rec [mk_interaction 1 1 1 LIKED; mk_interaction 2 1 4 BOOKMARKED] [] 0.

Definition admin_role_user : user := mk_user true false ["admin"].

(** A provider whose genre list holds Action (already stored) and Comedy. *)
Definition genre_list0 : list genre_entry :=
  [mk_genre_entry 28 "Action"; mk_genre_entry 35 "Comedy"].

Definition P_genres : provider :=
  mk_provider true (fun e =>
    match e with
    | EGenreList => HOk (BGenres (Some genre_list0))
    | _ => HTimeout
    end).

(** The [max_length=255] check of the Genre name column. *)
Definition genre_name_ok0 (n : string) : bool := Nat.leb (py_len n) 255.

Definition store_g : store := snd (seed_initial_genres P_genres genre_name_ok0 store0).

(** A database refusing every Movie row. *)
Definition none_ok (_ : movie_fields) : bool := false.

Definition admin0 : account := mk_account 1 "root" "root@example.com" "pw" true [].

Definition bob : account := mk_account 2 "bob" "bob@example.com" "pw" false ["user"].

Definition site0 : site := mk_site [admin0; bob] ["user"] w_rec.

(** The part of NFKC on the fullwidth forms U+FF01..U+FF5E, each mapped to
    the ASCII character 0xFEE0 below it; other code points are left as they
    are. *)
Definition nfkc_fullwidth (s : string) : string :=
  match utf8_decode (list_ascii_of_string s) with
  | Some cps =>
      string_of_list_ascii
        (utf8_encode (map (fun cp => if (65281 <=? cp) && (cp <=? 65374) then cp - 65248 else cp)
                          cps))
  | None => s
  end.

(** "ｂｏｂ" (U+FF42 U+FF4F U+FF42) in UTF-8. *)
Definition fullwidth_bob : string :=
  string_of_list_ascii (map ascii_of_nat [239; 189; 130; 239; 189; 143; 239; 189; 130]%nat).

(* ================================================================== *)
(** * Properties *)
(* ================================================================== *)

Example save_new_links_known_only :
  match save_movie_and_genres_to_db all_ok 5 (Some (pl (Some 27205) [28; 99])) store0 with
  | (Some m, s) => m_genres m = {[28]} /\ length (movies s) = 1%nat
  | _ => False
  end.
Proof. vm_compute. split; [set_solver | reflexivity]. Qed.

(** ** Store lemmas *)

Lemma elem_of_map_iff {A B} (f : A -> B) (l : list A) (y : B) :
  y ∈ map f l <-> exists x, y = f x /\ x ∈ l.
Proof.
  induction l as [|a l IH]; simpl.
  - split; [intros H; inversion H | intros (x & _ & H); inversion H].
  - rewrite elem_of_cons, IH. split.
    + intros [-> | (x & -> & Hx)].
      * exists a. split; [done | apply elem_of_cons; auto].
      * exists x. split; [done | apply elem_of_cons; auto].
    + intros (x & -> & Hx). apply elem_of_cons in Hx as [-> | Hx]; eauto.
Qed.

Lemma nodup_map_eq {A B} (f : A -> B) (l : list A) (x y : A) :
  NoDup (map f l) -> x ∈ l -> y ∈ l -> f x = f y -> x = y.
Proof.
  induction l as [|a l IH]; simpl; intros Hnd Hx Hy Hf.
  - inversion Hx.
  - apply NoDup_cons in Hnd as [Hnin Hnd].
    apply elem_of_cons in Hx as [-> | Hx]; apply elem_of_cons in Hy as [-> | Hy];
      auto.
    + exfalso. apply Hnin. rewrite Hf. apply elem_of_map_iff. eauto.
    + exfalso. apply Hnin. rewrite <- Hf. apply elem_of_map_iff. eauto.
Qed.

Lemma foldr_max_ge (l : list Z) (x : Z) : x ∈ l -> x <= foldr Z.max 0 l.
Proof.
  induction l as [|a l IH]; simpl; intros Hx.
  - inversion Hx.
  - apply elem_of_cons in Hx as [-> | Hx]; [lia |]. specialize (IH Hx). lia.
Qed.

Lemma fresh_uuid_new (s : store) (x : movie_row) :
  x ∈ movies s -> m_id x < fresh_uuid s.
Proof.
  intros Hx. unfold fresh_uuid.
  assert (m_id x <= foldr Z.max 0 (map m_id (movies s))); [|lia].
  apply foldr_max_ge, elem_of_map_iff. eauto.
Qed.

Lemma map_m_id_replace (r : movie_row) (l : list movie_row) :
  map m_id (map (replace_pk r) l) = map m_id l.
Proof.
  induction l as [|a l IH]; simpl; [done|].
  unfold replace_pk at 1. destruct (decide (m_id a = m_id r)); simpl; congruence.
Qed.

Lemma replace_pk_tmdb (r x : movie_row) :
  (m_id x = m_id r -> tmdb_id x = tmdb_id r) -> tmdb_id (replace_pk r x) = tmdb_id x.
Proof. intros H. unfold replace_pk. destruct (decide _); [symmetry; auto | done]. Qed.

Lemma map_tmdb_replace (r : movie_row) (l : list movie_row) :
  (forall x, x ∈ l -> m_id x = m_id r -> tmdb_id x = tmdb_id r) ->
  map tmdb_id (map (replace_pk r) l) = map tmdb_id l.
Proof.
  induction l as [|a l IH]; simpl; intros H; [done|].
  rewrite replace_pk_tmdb by (apply H; constructor).
  f_equal. apply IH. intros x Hx. apply H. by constructor.
Qed.

Lemma filter_tmdb_replace (r : movie_row) (l : list movie_row) (tid : Z) :
  (forall x, x ∈ l -> m_id x = m_id r -> tmdb_id x = tmdb_id r) ->
  filter (fun x => tmdb_id x = tid) (map (replace_pk r) l)
  = map (replace_pk r) (filter (fun x => tmdb_id x = tid) l).
Proof.
  induction l as [|a l IH]; simpl; intros H; [done|].
  rewrite !filter_cons.
  rewrite replace_pk_tmdb by (apply H; constructor).
  rewrite IH by (intros x Hx; apply H; by constructor).
  destruct (decide (tmdb_id a = tid)); done.
Qed.

Lemma elem_of_replace_inv (r y : movie_row) (l : list movie_row) :
  y ∈ map (replace_pk r) l -> y = r \/ (y ∈ l /\ m_id y <> m_id r).
Proof.
  intros Hy. apply elem_of_map_iff in Hy as (x & -> & Hx).
  unfold replace_pk. destruct (decide (m_id x = m_id r)); auto.
Qed.

Lemma elem_of_replace_other (r x : movie_row) (l : list movie_row) :
  x ∈ l -> m_id x <> m_id r -> x ∈ map (replace_pk r) l.
Proof.
  intros Hx Hne. apply elem_of_map_iff. exists x. split; [|done].
  unfold replace_pk. by destruct (decide _).
Qed.

Lemma rows_with_tmdb_elem (tid : Z) (s : store) (x : movie_row) :
  x ∈ rows_with_tmdb tid s <-> tmdb_id x = tid /\ x ∈ movies s.
Proof. unfold rows_with_tmdb. by rewrite list_elem_of_filter. Qed.

Lemma rows_with_tmdb_nil (tid : Z) (s : store) (x : movie_row) :
  rows_with_tmdb tid s = [] -> x ∈ movies s -> tmdb_id x <> tid.
Proof.
  intros E Hx Heq. assert (Hin : x ∈ rows_with_tmdb tid s)
    by (apply rows_with_tmdb_elem; auto).
  rewrite E in Hin. inversion Hin.
Qed.

Lemma rows_with_tmdb_at_most_one (tid : Z) (s : store) (r1 r2 : movie_row)
    (l : list movie_row) :
  store_wf s -> rows_with_tmdb tid s <> r1 :: r2 :: l.
Proof.
  intros [_ Hnd] E. unfold rows_with_tmdb in E. revert r1 r2 l E.
  induction (movies s) as [|a ms IH]; simpl in *; intros r1 r2 l E.
  - rewrite filter_nil in E. discriminate.
  - apply NoDup_cons in Hnd as [Hnin Hnd].
    rewrite filter_cons in E. destruct (decide (tmdb_id a = tid)) as [Ha|Ha].
    + injection E as -> E.
      assert (Hin : r2 ∈ filter (fun r => tmdb_id r = tid) ms) by (rewrite E; constructor).
      apply list_elem_of_filter in Hin as [H2 Hin]. apply Hnin.
      apply elem_of_map_iff. exists r2. split; [congruence | done].
    + eapply IH; eauto.
Qed.

(** Writing a row over the only row of its [tmdb_id]. *)
Lemma save_row_single (s : store) (r r' : movie_row) :
  store_wf s -> rows_with_tmdb (tmdb_id r) s = [r] ->
  m_id r' = m_id r -> tmdb_id r' = tmdb_id r ->
  store_wf (save_row r' s) /\ rows_with_tmdb (tmdb_id r) (save_row r' s) = [r'] /\
  genres (save_row r' s) = genres s /\
  (forall x, tmdb_id x <> tmdb_id r -> x ∈ movies (save_row r' s) <-> x ∈ movies s).
Proof.
  intros [Hpk Htm] E Hid Htid.
  assert (Hr : r ∈ movies s)
    by (apply (rows_with_tmdb_elem (tmdb_id r)); rewrite E; constructor).
  assert (Hsame : forall x, x ∈ movies s -> m_id x = m_id r' -> x = r)
    by (intros x Hx Hx'; eapply (nodup_map_eq m_id); eauto; congruence).
  assert (Hcompat : forall x, x ∈ movies s -> m_id x = m_id r' -> tmdb_id x = tmdb_id r')
    by (intros x Hx Hx'; rewrite (Hsame x Hx Hx'); congruence).
  split; [|split; [|split]].
  - split; simpl.
    + by rewrite map_m_id_replace.
    + by rewrite map_tmdb_replace.
  - unfold rows_with_tmdb in *. simpl.
    rewrite filter_tmdb_replace by done. rewrite E. simpl.
    unfold replace_pk. by rewrite decide_True by congruence.
  - done.
  - intros x Hne. simpl. split.
    + intros Hx. apply elem_of_replace_inv in Hx as [-> | [Hx _]]; [congruence | done].
    + intros Hx. apply elem_of_replace_other; [done|].
      intros Heq. apply Hne. rewrite (Hsame x Hx Heq). done.
Qed.

(** Appending a fresh row for a [tmdb_id] that has none. *)
Lemma create_single (s : store) (r : movie_row) :
  store_wf s -> rows_with_tmdb (tmdb_id r) s = [] -> m_id r = fresh_uuid s ->
  let s1 := mk_store (movies s ++ [r]) (genres s) in
  store_wf s1 /\ rows_with_tmdb (tmdb_id r) s1 = [r] /\
  (forall x, tmdb_id x <> tmdb_id r -> x ∈ movies s1 <-> x ∈ movies s).
Proof.
  intros [Hpk Htm] E Hid s1. subst s1.
  split; [|split].
  - split; simpl; rewrite map_app; simpl; apply NoDup_app; repeat split; auto;
      try (constructor; [set_solver | constructor]);
      intros y Hy; apply list_elem_of_singleton_2 || idtac;
      apply elem_of_map_iff in Hy as (x & -> & Hx); rewrite list_elem_of_singleton.
    + pose proof (fresh_uuid_new s x Hx). lia.
    + exact (rows_with_tmdb_nil _ s x E Hx).
  - unfold rows_with_tmdb in *. simpl. rewrite filter_app, E. simpl.
    rewrite filter_cons_True by done. by rewrite filter_nil.
  - intros x Hne. simpl. rewrite elem_of_app, list_elem_of_singleton.
    split; [intros [Hx | ->]; [done | congruence] | auto].
Qed.

Lemma genre_filter_nil (s : store) : genre_filter [] s = ∅.
Proof.
  unfold genre_filter. apply set_eq. intros g. rewrite elem_of_filter.
  split; [intros [H _]; inversion H | intros H; inversion H].
Qed.

Lemma elem_of_genre_filter (ids : list Z) (s : store) (g : Z) :
  g ∈ genre_filter ids s <-> g ∈ ids /\ g ∈ dom (genres s).
Proof. unfold genre_filter. by rewrite elem_of_filter. Qed.

Lemma update_or_create_rejected (accepts : movie_fields -> bool) (now tid : Z)
    (defs : movie_fields) (s : store) :
  accepts defs = false -> update_or_create accepts now tid defs s = None.
Proof.
  intros H. unfold update_or_create.
  destruct (rows_with_tmdb tid s) as [|r [|r2 l]]; rewrite ?H; done.
Qed.

Ltac upsert_close :=
  repeat match goal with
  | |- forall r, [] = [r] -> _ => intros ? ?; discriminate
  | |- forall r, [?a] = [r] -> _ => intros ? Hr'; injection Hr' as <-; done
  | Hoth2 : forall x, _ -> x ∈ movies ?s2 <-> x ∈ movies ?s1,
    Hoth1 : forall x, _ -> x ∈ movies ?s1 <-> x ∈ movies ?s0
    |- forall x, _ -> x ∈ movies ?s2 <-> x ∈ movies ?s0 =>
      intros ? Hx; rewrite Hoth2 by done; by apply Hoth1
  | Hg2 : genres ?s2 = genres ?s1, Hg1 : genres ?s1 = genres ?s0
    |- genres ?s2 = genres ?s0 => by rewrite Hg2
  | Hg : genres ?s1 = genres ?s0 |- m_genres _ = _ =>
      simpl; unfold genre_filter; rewrite ?Hg; set_solver
  | |- m_genres _ = _ => simpl; set_solver
  end.

(** What one accepted upsert of a payload with a usable id does. *)
Lemma upsert_spec (accepts : movie_fields -> bool) (now : Z) (d : payload)
    (tid : Z) (s : store) :
  store_wf s -> id_truthy (p_id d) = Some tid -> accepts (movie_defaults d) = true ->
  exists m s', save_movie_and_genres_to_db accepts now (Some d) s = (Some m, s') /\
    store_wf s' /\ rows_with_tmdb tid s' = [m] /\ genres s' = genres s /\
    tmdb_id m = tid /\ m_fields m = movie_defaults d /\ updated_at m = now /\
    m_genres m = old_genres tid s ∪ genre_filter (genre_ids_from_tmdb d) s /\
    (forall x, tmdb_id x <> tid -> x ∈ movies s' <-> x ∈ movies s) /\
    (forall r, rows_with_tmdb tid s = [r] ->
       m_id m = m_id r /\ created_at m = created_at r).
Proof.
  intros Hwf Hid Hacc. unfold save_movie_and_genres_to_db. rewrite Hid.
  unfold update_or_create, old_genres.
  destruct (rows_with_tmdb tid s) as [|r [|r2 l]] eqn:E.
  - (* DoesNotExist: create *)
    rewrite Hacc.
    set (rn := mk_row (fresh_uuid s) tid (movie_defaults d) ∅ now now).
    destruct (create_single s rn Hwf E eq_refl) as (Hwf1 & E1 & Hoth1).
    set (s1 := mk_store (movies s ++ [rn]) (genres s)) in *.
    destruct (genre_ids_from_tmdb d) as [|i ids] eqn:Eg.
    + exists rn, s1. rewrite genre_filter_nil. split_and!; auto; upsert_close.
    + cbn [add_genres].
      set (rg := with_genres rn (m_genres rn ∪ genre_filter (i :: ids) s1)).
      destruct (save_row_single s1 rn rg Hwf1 E1 eq_refl eq_refl)
        as (Hwf2 & E2 & Hg2 & Hoth2).
      exists rg, (save_row rg s1). split_and!; auto; upsert_close.
  - (* the existing row: update in place *)
    rewrite Hacc.
    assert (Ht : tmdb_id r = tid)
      by (apply (rows_with_tmdb_elem tid s r); rewrite E; constructor).
    subst tid.
    set (r1 := with_fields r (movie_defaults d) now).
    destruct (save_row_single s r r1 Hwf E eq_refl eq_refl)
      as (Hwf1 & E1 & Hg1 & Hoth1).
    change (tmdb_id r) with (tmdb_id r1) in E1.
    destruct (genre_ids_from_tmdb d) as [|i ids] eqn:Eg.
    + exists r1, (save_row r1 s). rewrite genre_filter_nil. split_and!; auto; upsert_close.
    + cbn [add_genres].
      set (s1 := save_row r1 s) in *.
      set (rg := with_genres r1 (m_genres r1 ∪ genre_filter (i :: ids) s1)).
      destruct (save_row_single s1 r1 rg Hwf1 E1 eq_refl eq_refl)
        as (Hwf2 & E2 & Hg2 & Hoth2).
      exists rg, (save_row rg s1). split_and!; auto; upsert_close.
  - exfalso. exact (rows_with_tmdb_at_most_one tid s r r2 l Hwf E).
Qed.

(** Every upsert outcome other than an accepted write leaves the store as is. *)
Lemma save_cases (accepts : movie_fields -> bool) (now : Z) (inp : option payload)
    (s : store) :
  save_movie_and_genres_to_db accepts now inp s = (None, s) \/
  exists d tid, inp = Some d /\ id_truthy (p_id d) = Some tid /\
    accepts (movie_defaults d) = true.
Proof.
  destruct inp as [d|]; [|left; done].
  simpl. destruct (id_truthy (p_id d)) as [tid|] eqn:Hid; [|left; done].
  destruct (accepts (movie_defaults d)) eqn:Hacc.
  - right. eauto.
  - left. by rewrite update_or_create_rejected.
Qed.

Lemma id_truthy_valid (o : option Z) (tid : Z) :
  o = Some tid -> tid <> 0 -> id_truthy o = Some tid.
Proof. intros -> H. simpl. destruct (Z.eqb_spec tid 0); congruence. Qed.

Lemma id_truthy_some (o : option Z) (tid tid' : Z) :
  o = Some tid -> id_truthy o = Some tid' -> tid = tid'.
Proof. intros -> H. simpl in H. destruct (Z.eqb tid 0); congruence. Qed.

(** ** C1: upsert idempotence *)

(** C1. Applying [save_movie_and_genres_to_db] twice to the same payload
    with a usable id, on a store satisfying the schema constraints, leaves
    exactly one row for the id; the second application returns and stores
    that row with every field (internal id, tmdb id, title, overview,
    poster path, release date, popularity, vote average, genre links,
    created_at) unchanged except [updated_at], and touches no other row
    and no genre. *)
Theorem upsert_idempotent (accepts : movie_fields -> bool) (t1 t2 : Z)
    (d : payload) (tid : Z) (s : store) (o1 o2 : option movie_row)
    (s1 s2 : store) :
  store_wf s -> p_id d = Some tid -> tid <> 0 ->
  accepts (movie_defaults d) = true ->
  save_movie_and_genres_to_db accepts t1 (Some d) s = (o1, s1) ->
  save_movie_and_genres_to_db accepts t2 (Some d) s1 = (o2, s2) ->
  exists m1, o1 = Some m1 /\ rows_with_tmdb tid s1 = [m1] /\
    o2 = Some (touch m1 t2) /\ rows_with_tmdb tid s2 = [touch m1 t2] /\
    genres s2 = genres s1 /\
    (forall x, tmdb_id x <> tid -> x ∈ movies s2 <-> x ∈ movies s1).
Proof.
  intros Hwf Hp Hnz Hacc H1 H2.
  pose proof (id_truthy_valid _ _ Hp Hnz) as Hid.
  destruct (upsert_spec accepts t1 d tid s Hwf Hid Hacc)
    as (m & s' & E1 & Hwf1 & R1 & G1 & T1 & F1 & U1 & Gn1 & O1 & _).
  rewrite E1 in H1. injection H1 as <- <-.
  destruct (upsert_spec accepts t2 d tid s' Hwf1 Hid Hacc)
    as (m2 & s'' & E2 & Hwf2 & R2 & G2 & T2 & F2 & U2 & Gn2 & O2 & Old2).
  rewrite E2 in H2. injection H2 as <- <-.
  destruct (Old2 m R1) as [Id2 C2].
  assert (Hm2 : m2 = touch m t2).
  { unfold old_genres in Gn2. rewrite R1 in Gn2.
    unfold genre_filter in Gn2, Gn1. rewrite G1 in Gn2.
    destruct m2 as [i2 tm2 f2 g2 c2 u2], m as [i1 tm1 f1 g1 c1 u1].
    unfold touch, with_fields; simpl in *. subst. f_equal. set_solver. }
  subst m2. exists m. split_and!; auto.
Qed.

(** ** C2: tmdb_id determines the row *)

(** C2. Every upsert preserves the schema constraints (one row per
    [tmdb_id], unique primary keys); when the payload's id already has a
    row, afterwards there is still exactly one row for it, with the same
    internal id and [created_at]: either the upsert was refused and the
    store is unchanged, or it returned that row with the new fields. *)
Theorem upsert_external_id_unique (accepts : movie_fields -> bool) (now : Z)
    (inp : option payload) (s : store) (o : option movie_row) (s' : store) :
  store_wf s -> save_movie_and_genres_to_db accepts now inp s = (o, s') ->
  store_wf s' /\
  (forall d tid r, inp = Some d -> p_id d = Some tid -> rows_with_tmdb tid s = [r] ->
     exists r', rows_with_tmdb tid s' = [r'] /\ m_id r' = m_id r /\
       created_at r' = created_at r /\
       ((o = None /\ s' = s) \/ (o = Some r' /\ m_fields r' = movie_defaults d))).
Proof.
  intros Hwf Hs.
  destruct (save_cases accepts now inp s) as [E | (d0 & tid0 & -> & Hid & Hacc)].
  - rewrite E in Hs. injection Hs as <- <-. split; [done|].
    intros d tid r _ _ R. exists r. split_and!; auto.
  - destruct (upsert_spec accepts now d0 tid0 s Hwf Hid Hacc)
      as (m & s1 & E & Hwf1 & R1 & G1 & T1 & F1 & U1 & Gn1 & O1 & Old1).
    rewrite E in Hs. injection Hs as <- <-. split; [done|].
    intros d tid r Hd Hp R. injection Hd as <-.
    pose proof (id_truthy_some _ _ _ Hp Hid) as <-.
    destruct (Old1 r R) as [Hi Hc]. exists m. split_and!; auto.
Qed.

(** ** C3: genre links are a union with known genres *)

(** C3. No upsert creates, renames or deletes a Genre row.  An accepted
    upsert of a payload with a usable id links the movie to exactly its
    previous genres plus those derived payload genre ids that are Genre
    rows; other rows keep their links. *)
Theorem upsert_genres_union_known (accepts : movie_fields -> bool) (now : Z)
    (s : store) :
  store_wf s ->
  (forall inp o s', save_movie_and_genres_to_db accepts now inp s = (o, s') ->
     genres s' = genres s) /\
  (forall d tid, p_id d = Some tid -> tid <> 0 -> accepts (movie_defaults d) = true ->
     exists m s', save_movie_and_genres_to_db accepts now (Some d) s = (Some m, s') /\
       rows_with_tmdb tid s' = [m] /\
       (forall g, g ∈ m_genres m <->
          g ∈ old_genres tid s \/
          (g ∈ genre_ids_from_tmdb d /\ g ∈ dom (genres s))) /\
       (forall x, tmdb_id x <> tid -> x ∈ movies s' <-> x ∈ movies s)).
Proof.
  intros Hwf. split.
  - intros inp o s' Hs.
    destruct (save_cases accepts now inp s) as [E | (d0 & tid0 & -> & Hid & Hacc)].
    + rewrite E in Hs. by injection Hs as _ <-.
    + destruct (upsert_spec accepts now d0 tid0 s Hwf Hid Hacc)
        as (m & s1 & E & _ & _ & G1 & _).
      rewrite E in Hs. by injection Hs as _ <-.
  - intros d tid Hp Hnz Hacc.
    pose proof (id_truthy_valid _ _ Hp Hnz) as Hid.
    destruct (upsert_spec accepts now d tid s Hwf Hid Hacc)
      as (m & s1 & E & _ & R1 & _ & _ & _ & _ & Gn1 & O1 & _).
    exists m, s1. split_and!; auto.
    intros g. rewrite Gn1, elem_of_union, elem_of_genre_filter. done.
Qed.

(** ** C4: missing id *)

(** C4. A payload that is [None] or has no ['id'] key makes the upsert
    return [None] and leave the store (movies, links, genres) unchanged;
    the function is total, so nothing is raised to the caller. *)
Theorem upsert_missing_id_no_write (accepts : movie_fields -> bool) (now : Z)
    (inp : option payload) (s : store) :
  (inp = None \/ exists d, inp = Some d /\ p_id d = None) ->
  save_movie_and_genres_to_db accepts now inp s = (None, s).
Proof. intros [-> | (d & -> & Hp)]; [done|]. simpl. by rewrite Hp. Qed.

(** ** Witnesses *)


Lemma store0_wf : store_wf store0.
Proof. split; constructor. Qed.

Lemma upsert_idempotent_witness :
  exists m1,
    fst (save_movie_and_genres_to_db all_ok 5 (Some d0) store0) = Some m1 /\
    rows_with_tmdb 27205 (snd (save_movie_and_genres_to_db all_ok 5 (Some d0) store0)) = [m1] /\
    fst (save_movie_and_genres_to_db all_ok 9 (Some d0)
           (snd (save_movie_and_genres_to_db all_ok 5 (Some d0) store0)))
      = Some (touch m1 9) /\
    rows_with_tmdb 27205
      (snd (save_movie_and_genres_to_db all_ok 9 (Some d0)
              (snd (save_movie_and_genres_to_db all_ok 5 (Some d0) store0))))
      = [touch m1 9] /\
    genres (snd (save_movie_and_genres_to_db all_ok 9 (Some d0)
              (snd (save_movie_and_genres_to_db all_ok 5 (Some d0) store0))))
      = genres (snd (save_movie_and_genres_to_db all_ok 5 (Some d0) store0)) /\
    (forall x, tmdb_id x <> 27205 ->
       x ∈ movies (snd (save_movie_and_genres_to_db all_ok 9 (Some d0)
                          (snd (save_movie_and_genres_to_db all_ok 5 (Some d0) store0))))
       <-> x ∈ movies (snd (save_movie_and_genres_to_db all_ok 5 (Some d0) store0))).
Proof.
  apply (upsert_idempotent all_ok 5 9 d0 27205 store0).
  - exact store0_wf.
  - reflexivity.
  - lia.
  - reflexivity.
  - reflexivity.
  - reflexivity.
Defined.



Lemma upsert_external_id_unique_witness :
  store_wf (snd (save_movie_and_genres_to_db all_ok 7 (Some d1) store1)) /\
  (forall d tid r, Some d1 = Some d -> p_id d = Some tid -> rows_with_tmdb tid store1 = [r] ->
     exists r', rows_with_tmdb tid (snd (save_movie_and_genres_to_db all_ok 7 (Some d1) store1)) = [r'] /\
       m_id r' = m_id r /\ created_at r' = created_at r /\
       ((fst (save_movie_and_genres_to_db all_ok 7 (Some d1) store1) = None /\
         snd (save_movie_and_genres_to_db all_ok 7 (Some d1) store1) = store1) \/
        (fst (save_movie_and_genres_to_db all_ok 7 (Some d1) store1) = Some r' /\
         m_fields r' = movie_defaults d))).
Proof.
  apply (upsert_external_id_unique all_ok 7 (Some d1) store1).
  - vm_compute. split; repeat constructor; set_solver.
  - reflexivity.
Defined.

Lemma upsert_genres_union_known_witness :
  (forall inp o s', save_movie_and_genres_to_db all_ok 7 inp store1 = (o, s') ->
     genres s' = genres store1) /\
  (forall d tid, p_id d = Some tid -> tid <> 0 -> all_ok (movie_defaults d) = true ->
     exists m s', save_movie_and_genres_to_db all_ok 7 (Some d) store1 = (Some m, s') /\
       rows_with_tmdb tid s' = [m] /\
       (forall g, g ∈ m_genres m <->
          g ∈ old_genres tid store1 \/
          (g ∈ genre_ids_from_tmdb d /\ g ∈ dom (genres store1))) /\
       (forall x, tmdb_id x <> tid -> x ∈ movies s' <-> x ∈ movies store1)).
Proof.
  apply (upsert_genres_union_known all_ok 7 store1).
  vm_compute. split; repeat constructor; set_solver.
Defined.

Lemma upsert_missing_id_no_write_witness :
  save_movie_and_genres_to_db all_ok 7 (Some (pl None [28])) store1 = (None, store1).
Proof.
  apply (upsert_missing_id_no_write all_ok 7 (Some (pl None [28])) store1).
  right. exists (pl None [28]). split; reflexivity.
Defined.

Example upsert_detail_shape_links :
  match save_movie_and_genres_to_db all_ok 7 (Some d1) store1 with
  | (Some m, s) => m_genres m = {[12; 28]} /\ length (movies s) = 1%nat
  | _ => False
  end.
Proof. vm_compute. split; [set_solver | reflexivity]. Qed.

(** ** C5: the detail cache *)

Lemma serialize_movie_opt_truthy (s : store) (o : option movie_row) :
  json_truthy (serialize_movie_opt s o) = true.
Proof. by destruct o. Qed.

Lemma serialize_movie_truthy (s : store) (m : movie_row) :
  json_truthy (serialize_movie s m) = true.
Proof. done. Qed.

Lemma cache_get_set (k : string) (v : json) (ttl : Z) (w : world) :
  cache_get k (cache_set k v ttl w) = Some v.
Proof. unfold cache_get, cache_set. simpl. by rewrite lookup_insert_eq. Qed.

Lemma detail_served_from_cache (P : provider) (accepts : movie_fields -> bool)
    (tid : Z) (data : json) (w : world) :
  cache_get (detail_cache_key tid) w = Some data -> json_truthy data = true ->
  MovieDetailByTmdbIdView_get P accepts tid w
  = (success_response data default_message 200, w).
Proof. intros H Ht. unfold MovieDetailByTmdbIdView_get. by rewrite H, Ht. Qed.

(** C5. If the detail key of [tid] is not cached and a detail request
    answers 200, the serialized payload it returned is stored under that
    key (24h timeout), and a second request on the resulting state returns
    the same response and leaves the state, including the effect log,
    exactly as it was: no provider call and no store read. *)
Theorem detail_cache_second_request (P : provider) (accepts : movie_fields -> bool)
    (tid : Z) (w w1 : world) (r1 : response) :
  cache_get (detail_cache_key tid) w = None ->
  MovieDetailByTmdbIdView_get P accepts tid w = (r1, w1) ->
  resp_status r1 = 200 ->
  exists data,
    w_cache w1 !! detail_cache_key tid = Some (data, 86400) /\
    r1 = success_response data default_message 200 /\
    MovieDetailByTmdbIdView_get P accepts tid w1 = (r1, w1).
Proof.
  intros Hmiss Hreq Hst.
  unfold MovieDetailByTmdbIdView_get in Hreq. rewrite Hmiss in Hreq.
  unfold detail_miss in Hreq.
  destruct (rows_with_tmdb tid (w_store (log_event EvStoreRead w)))
    as [|movie [|m2 l]].
  - destruct (get_tmdb_movie_details P tid) as [b|]; [|injection Hreq as <- _; discriminate].
    destruct (body_truthy b); [|injection Hreq as <- _; discriminate].
    destruct (upsert accepts (body_payload b) _) as [mo w3].
    injection Hreq as <- <-.
    eexists. split_and!.
    + unfold cache_set. simpl. by rewrite lookup_insert_eq.
    + done.
    + apply detail_served_from_cache; [apply cache_get_set | apply serialize_movie_opt_truthy].
  - injection Hreq as <- <-.
    eexists. split_and!.
    + unfold cache_set. simpl. by rewrite lookup_insert_eq.
    + done.
    + apply detail_served_from_cache; [apply cache_get_set | apply serialize_movie_truthy].
  - injection Hreq as <- _. discriminate.
Qed.

(** ** C6: personalised recommendations *)

Lemma genre_join_elem (lg : gset Z) (ms : list movie_row) (m : movie_row) :
  m ∈ genre_join lg ms <-> m ∈ ms /\ exists g, g ∈ m_genres m /\ g ∈ lg.
Proof.
  unfold genre_join. induction ms as [|a ms IH]; simpl.
  - split; [intros H; inversion H | intros [H _]; inversion H].
  - rewrite elem_of_app, IH, elem_of_map_iff, elem_of_cons. split.
    + intros [(g & -> & Hg) | [Hm Hex]].
      * apply list_elem_of_filter in Hg as [Hlg Hel].
        apply elem_of_elements in Hel. split; [left; done | eauto].
      * split; [right; done | done].
    + intros [[-> | Hm] Hex].
      * left. destruct Hex as (g & Hg & Hlg). exists g. split; [done|].
        apply list_elem_of_filter. split; [done | by apply elem_of_elements].
      * right. auto.
Qed.

Lemma interacted_movie_ids_spec (u : Z) (w : world) (mid : Z) :
  mid ∉ interacted_movie_ids u w <->
  forall i, i ∈ w_interactions w -> i_user i = u -> i_movie i <> mid.
Proof.
  unfold interacted_movie_ids. split.
  - intros Hn i Hi Hu Heq. apply Hn. apply elem_of_map_iff.
    exists i. split; [done|]. by apply list_elem_of_filter.
  - intros H Hin. apply elem_of_map_iff in Hin as (i & -> & Hi).
    apply list_elem_of_filter in Hi as [Hu Hi]. exact (H i Hi Hu eq_refl).
Qed.

Global Instance pop_desc_total : Total pop_desc.
Proof. intros a b. unfold pop_desc. lia. Qed.

Global Instance pop_desc_trans : Transitive pop_desc.
Proof. intros a b c. unfold pop_desc. lia. Qed.

Lemma StronglySorted_app_l {A} (R : A -> A -> Prop) (l1 l2 : list A) :
  StronglySorted R (l1 ++ l2) -> StronglySorted R l1.
Proof.
  induction l1 as [|a l1 IH]; simpl; intros H; [constructor|].
  inversion H as [|? ? Hs Hf]; subst. constructor; [auto|].
  apply Forall_app in Hf. tauto.
Qed.

Lemma StronglySorted_app_across {A} (R : A -> A -> Prop) (l1 l2 : list A) (x y : A) :
  StronglySorted R (l1 ++ l2) -> y ∈ l1 -> x ∈ l2 -> R y x.
Proof.
  induction l1 as [|a l1 IH]; simpl; intros H Hy Hx; [inversion Hy|].
  inversion H as [|? ? Hs Hf]; subst.
  apply elem_of_cons in Hy as [-> | Hy]; [|auto].
  apply Forall_app in Hf as [_ Hf]. rewrite Forall_forall in Hf.
  by apply Hf.
Qed.

(** The query of the personalised branch returns the top-20 by popularity
    of the distinct genre-matching, non-excluded movies. *)
Lemma recommended_movies_spec (lg : gset Z) (excl : list Z) (ms : list movie_row) :
  let out := recommended_movies lg excl ms in
  (forall m, m ∈ out ->
     m ∈ ms /\ (exists g, g ∈ m_genres m /\ g ∈ lg) /\ m_id m ∉ excl) /\
  NoDup out /\ Sorted pop_desc out /\ (length out <= 20)%nat /\
  (forall m, m ∈ ms -> (exists g, g ∈ m_genres m /\ g ∈ lg) -> m_id m ∉ excl ->
     m ∈ out \/
     (length out = 20%nat /\
      forall m', m' ∈ out -> popularity (m_fields m) <= popularity (m_fields m'))).
Proof.
  intros out. unfold out, recommended_movies.
  set (C := remove_dups (filter (fun m => m_id m ∉ excl) (genre_join lg ms))).
  set (L := merge_sort pop_desc C).
  assert (HP : L ≡ₚ C) by apply merge_sort_Permutation.
  assert (HC : forall x, x ∈ L <->
             x ∈ ms /\ (exists g, g ∈ m_genres x /\ g ∈ lg) /\ m_id x ∉ excl).
  { intros x. rewrite HP. unfold C.
    rewrite elem_of_remove_dups, list_elem_of_filter, genre_join_elem. tauto. }
  assert (HND : NoDup L) by (rewrite HP; apply NoDup_remove_dups).
  assert (HSS : StronglySorted pop_desc L)
    by (apply StronglySorted_merge_sort; apply _).
  pose proof (take_drop 20 L) as HTD.
  assert (Htake : forall x, x ∈ take 20 L -> x ∈ L)
    by (intros x Hx; rewrite <- HTD; apply elem_of_app; by left).
  split_and!.
  - intros m Hm. apply HC, Htake, Hm.
  - rewrite <- HTD in HND. apply NoDup_app in HND. tauto.
  - apply StronglySorted_Sorted. rewrite <- HTD in HSS.
    exact (StronglySorted_app_l _ _ _ HSS).
  - rewrite length_take. lia.
  - intros m Hms Hg Hex.
    assert (HmL : m ∈ L) by (apply HC; auto).
    rewrite <- HTD in HmL. apply elem_of_app in HmL as [Hin | Hdrop]; [by left|].
    right. split.
    + apply length_take_le.
      assert (Hlen : (0 < length (drop 20 L))%nat)
        by (destruct (drop 20 L); [inversion Hdrop | simpl; lia]).
      rewrite length_drop in Hlen. lia.
    + intros m' Hm'. rewrite <- HTD in HSS.
      exact (StronglySorted_app_across _ _ _ _ _ HSS Hm' Hdrop).
Qed.

(** C6. For a user whose liked-genre set is non-empty, the answer is a
    success envelope over a list [ms] of stored movies, produced without a
    provider call (the only effect is the store read), such that: every
    movie of [ms] has a genre in the liked set and no interaction (of any
    type) of the user; [ms] has no duplicates, is sorted by popularity
    descending and has at most 20 elements; and every such movie is in
    [ms] unless [ms] already holds 20 movies at least as popular. *)
Theorem user_recommendations_personalized (P : provider)
    (accepts : movie_fields -> bool) (u : Z) (w w' : world) (r : response) :
  liked_genres_ids u w <> ∅ ->
  UserRecommendationsView_get P accepts u w = (r, w') ->
  exists ms,
    r = success_response (serialize_movies (w_store w) ms)
          "Personalized recommendations generated." 200 /\
    w' = log_event EvStoreRead w /\
    (forall m, m ∈ ms ->
       m ∈ movies (w_store w) /\
       (exists g, g ∈ m_genres m /\ g ∈ liked_genres_ids u w) /\
       (forall i, i ∈ w_interactions w -> i_user i = u -> i_movie i <> m_id m)) /\
    NoDup ms /\ Sorted pop_desc ms /\ (length ms <= 20)%nat /\
    (forall m, m ∈ movies (w_store w) ->
       (exists g, g ∈ m_genres m /\ g ∈ liked_genres_ids u w) ->
       (forall i, i ∈ w_interactions w -> i_user i = u -> i_movie i <> m_id m) ->
       m ∈ ms \/
       (length ms = 20%nat /\
        forall m', m' ∈ ms -> popularity (m_fields m) <= popularity (m_fields m'))).
Proof.
  intros Hne Hreq. unfold UserRecommendationsView_get in Hreq.
  rewrite decide_False in Hreq by done.
  injection Hreq as <- <-.
  destruct (recommended_movies_spec (liked_genres_ids u w) (interacted_movie_ids u w)
              (movies (w_store w))) as (Hmem & Hnd & Hsort & Hlen & Hall).
  eexists. split_and!; [reflexivity | reflexivity | | exact Hnd | exact Hsort | exact Hlen |].
  - intros m Hm. destruct (Hmem m Hm) as (H1 & H2 & H3).
    split_and!; auto. by apply interacted_movie_ids_spec.
  - intros m Hm Hg Hi. apply Hall; auto. by apply interacted_movie_ids_spec.
Qed.

(** ** Witnesses for C5 and C6 *)

Lemma detail_cache_second_request_witness :
  exists data,
    w_cache (snd (MovieDetailByTmdbIdView_get P0 all_ok 550 w0))
      !! detail_cache_key 550 = Some (data, 86400) /\
    fst (MovieDetailByTmdbIdView_get P0 all_ok 550 w0)
      = success_response data default_message 200 /\
    MovieDetailByTmdbIdView_get P0 all_ok 550
      (snd (MovieDetailByTmdbIdView_get P0 all_ok 550 w0))
    = (fst (MovieDetailByTmdbIdView_get P0 all_ok 550 w0),
       snd (MovieDetailByTmdbIdView_get P0 all_ok 550 w0)).
Proof.
  apply (detail_cache_second_request P0 all_ok 550 w0).
  - vm_compute. reflexivity.
  - reflexivity.
  - vm_compute. reflexivity.
Defined.

Example recommendations_on_w_rec :
  fst (UserRecommendationsView_get P0 all_ok 1 w_rec)
  = success_response (serialize_movies store_rec
                        [mk_row 2 200 (mf 70) {[28; 12]} 0 0])
      "Personalized recommendations generated." 200.
Proof. vm_compute. reflexivity. Qed.

Lemma user_recommendations_personalized_witness :
  exists ms,
    fst (UserRecommendationsView_get P0 all_ok 1 w_rec)
    = success_response (serialize_movies (w_store w_rec) ms)
        "Personalized recommendations generated." 200 /\
    snd (UserRecommendationsView_get P0 all_ok 1 w_rec) = log_event EvStoreRead w_rec /\
    (forall m, m ∈ ms ->
       m ∈ movies (w_store w_rec) /\
       (exists g, g ∈ m_genres m /\ g ∈ liked_genres_ids 1 w_rec) /\
       (forall i, i ∈ w_interactions w_rec -> i_user i = 1 -> i_movie i <> m_id m)) /\
    NoDup ms /\ Sorted pop_desc ms /\ (length ms <= 20)%nat /\
    (forall m, m ∈ movies (w_store w_rec) ->
       (exists g, g ∈ m_genres m /\ g ∈ liked_genres_ids 1 w_rec) ->
       (forall i, i ∈ w_interactions w_rec -> i_user i = 1 -> i_movie i <> m_id m) ->
       m ∈ ms \/
       (length ms = 20%nat /\
        forall m', m' ∈ ms -> popularity (m_fields m) <= popularity (m_fields m'))).
Proof.
  apply (user_recommendations_personalized P0 all_ok 1 w_rec).
  - vm_compute. intros H. inversion H.
  - reflexivity.
Defined.

(** ** C7: the recommendation fallback *)

Lemma liked_genres_ids_none (u : Z) (w : world) :
  (forall i, i ∈ w_interactions w -> i_user i = u -> i_type i <> LIKED) ->
  liked_genres_ids u w = ∅.
Proof.
  unfold liked_genres_ids. intros H.
  assert (Hgen : forall (l : list interaction) (acc : gset Z),
            (forall i, i ∈ l -> i_user i = u -> i_type i <> LIKED) ->
            foldl (fun acc i =>
                     if decide (i_user i = u /\ i_type i = LIKED) then
                       match find_movie (i_movie i) (w_store w) with
                       | Some m => acc ∪ m_genres m
                       | None => acc
                       end
                     else acc) acc l = acc).
  { induction l as [|a l IH]; intros acc Hl; simpl; [done|].
    rewrite decide_False.
    - apply IH. intros i Hi. apply Hl. by apply elem_of_cons; right.
    - intros [Hu Ht]. refine (Hl a _ Hu Ht). apply elem_of_cons. by left. }
  by apply Hgen.
Qed.

(** For a user without LIKED interactions the recommendation view wraps
    the whole response body of the trending view (its envelope) as the
    ["data"] of a new success envelope, with HTTP status 200. *)
Lemma recommendation_fallback_wraps_trending (P : provider)
    (accepts : movie_fields -> bool) (u : Z) (w : world) :
  (forall i, i ∈ w_interactions w -> i_user i = u -> i_type i <> LIKED) ->
  UserRecommendationsView_get P accepts u w
  = (success_response (resp_data (fst (TrendingMoviesView_get P accepts w)))
       "No specific preferences yet, showing trending movies." 200,
     snd (TrendingMoviesView_get P accepts w)).
Proof.
  intros H. unfold UserRecommendationsView_get.
  rewrite (liked_genres_ids_none u w H), decide_True by done.
  by destruct (TrendingMoviesView_get P accepts w).
Qed.

(** C7 (at a concrete request). For user 1, who has no interactions, on an
    empty cache with a provider that answers the trending call, the
    ["data"] field of the recommendation response differs from the
    ["data"] field of the trending response: it is the trending envelope
    itself. *)
Lemma recommendation_fallback_shape_differs :
  envelope_data (resp_data (fst (UserRecommendationsView_get P0 all_ok 1 w0)))
  = Some (resp_data (fst (TrendingMoviesView_get P0 all_ok w0))) /\
  envelope_data (resp_data (fst (UserRecommendationsView_get P0 all_ok 1 w0)))
  <> envelope_data (resp_data (fst (TrendingMoviesView_get P0 all_ok w0))).
Proof. vm_compute. split; [reflexivity | discriminate]. Qed.

(** ** C8: provider client outcomes *)

(** C8 as stated fails: a timed-out trending call and a successful trending
    answer with an empty ["results"] list give the caller the same value. *)
Lemma trending_failure_indistinguishable :
  get_tmdb_trending_movies (mk_provider true (fun _ => HTimeout))
  = get_tmdb_trending_movies (mk_provider true (fun _ => HOk (BList (Some []) true))).
Proof. reflexivity. Qed.

Lemma list_results_cases (o : option tmdb_body) :
  (o = None -> list_results o = []) /\
  (forall r x, o = Some (BList (Some r) x) -> list_results o = r) /\
  (forall b, o = Some b -> body_results b = [] -> list_results o = []).
Proof.
  split_and!.
  - by intros ->.
  - intros r x ->. done.
  - intros b -> Hb. simpl. by destruct (body_truthy b).
Qed.

(** C8 (amended). [_make_tmdb_request] returns the decoded dict exactly
    when the API key is set and the call succeeds, and [None] on every
    failure (HTTP error, connection error, timeout, other error, missing
    key); the detail and genre-list fetches return that value as is.  The
    list fetches (trending, recommendations, search) return the dict's
    ["results"] list, [[]] when the dict has none, and [[]] on every
    failure as well. *)
Theorem provider_client_outcomes (P : provider) :
  (forall e b, _make_tmdb_request P e = Some b <->
               api_key_set P = true /\ tmdb P e = HOk b) /\
  (forall e, _make_tmdb_request P e = None <->
             api_key_set P = false \/ forall b, tmdb P e <> HOk b) /\
  (forall tid, get_tmdb_movie_details P tid = _make_tmdb_request P (EMovie tid)) /\
  fetch_genre_list P = _make_tmdb_request P EGenreList /\
  (forall tid, _make_tmdb_request P (ERecommendations tid) = None ->
     get_tmdb_movie_recommendations P tid = []) /\
  (forall q, _make_tmdb_request P (ESearch q) = None ->
     get_tmdb_movie_search_results P q = []) /\
  (_make_tmdb_request P ETrending = None -> get_tmdb_trending_movies P = []) /\
  (forall r x, _make_tmdb_request P ETrending = Some (BList (Some r) x) ->
     get_tmdb_trending_movies P = r) /\
  (forall tid r x, _make_tmdb_request P (ERecommendations tid) = Some (BList (Some r) x) ->
     get_tmdb_movie_recommendations P tid = r) /\
  (forall q r x, _make_tmdb_request P (ESearch q) = Some (BList (Some r) x) ->
     get_tmdb_movie_search_results P q = r) /\
  (forall e b, _make_tmdb_request P e = Some b -> body_results b = [] ->
     list_results (_make_tmdb_request P e) = []).
Proof.
  unfold get_tmdb_trending_movies, get_tmdb_movie_recommendations,
    get_tmdb_movie_search_results.
  split_and!.
  - intros e b. unfold _make_tmdb_request.
    destruct (api_key_set P); [|split; [discriminate | intros [H _]; discriminate]].
    destruct (tmdb P e) as [b'| | | |]; split; intros H;
      try discriminate; try (exfalso; destruct H; discriminate).
    + injection H as <-. done.
    + destruct H as [_ H]. congruence.
  - intros e. unfold _make_tmdb_request.
    destruct (api_key_set P); [|split; [auto | done]].
    destruct (tmdb P e); split; intros H; try discriminate; try done;
      try (right; intros ? ?; discriminate).
    destruct H as [H | H]; [discriminate | by destruct (H b)].
  - done.
  - done.
  - intros tid H. by rewrite H.
  - intros q H. by rewrite H.
  - intros H. by rewrite H.
  - intros r x H. by rewrite H.
  - intros tid r x H. by rewrite H.
  - intros q r x H. by rewrite H.
  - intros e b H Hb. by apply (list_results_cases (_make_tmdb_request P e)) with b.
Qed.

(** ** C9: blank search queries *)

Lemma lstrip_nil_iff (l : list Z) :
  lstrip_list l = [] <-> forallb py_isspace l = true.
Proof.
  induction l as [|c l IH]; simpl; [done|].
  destruct (py_isspace c); simpl; [exact IH | split; discriminate].
Qed.

Lemma forallb_lstrip (l : list Z) :
  forallb py_isspace (lstrip_list l) = true <-> lstrip_list l = [].
Proof.
  induction l as [|c l IH]; simpl; [done|].
  destruct (py_isspace c) eqn:E; simpl; [exact IH|].
  rewrite E. split; discriminate.
Qed.

Lemma forallb_reverse {A} (f : A -> bool) (l : list A) :
  forallb f (reverse l) = forallb f l.
Proof.
  induction l as [|c l IH]; [done|].
  rewrite reverse_cons, forallb_app, IH. simpl.
  by rewrite andb_true_r, andb_comm.
Qed.

Lemma reverse_nil_iff {A} (l : list A) : reverse l = [] <-> l = [].
Proof.
  split; [|intros ->; done].
  intros H. rewrite <- (reverse_involutive l), H. done.
Qed.

Lemma string_of_list_ascii_empty (l : list ascii) :
  string_of_list_ascii l = ""%string <-> l = [].
Proof. destruct l; simpl; split; done. Qed.

Lemma utf8_encode_cp_nonempty (cp : Z) : utf8_encode_cp cp <> [].
Proof.
  unfold utf8_encode_cp.
  destruct (cp <? 128); [discriminate|]. destruct (cp <? 2048); [discriminate|].
  destruct (cp <? 65536); discriminate.
Qed.

Lemma utf8_encode_nil (l : list Z) : utf8_encode l = [] <-> l = [].
Proof.
  destruct l as [|c l]; [done|]. unfold utf8_encode. simpl. split; [|discriminate].
  intros H. apply app_eq_nil in H as [H _]. by apply utf8_encode_cp_nonempty in H.
Qed.

(** On the encoding of code points [cps], [str.strip()] gives the empty
    string exactly when every code point is whitespace. *)
Lemma py_strip_empty_iff (s : string) (cps : list Z) :
  utf8_decode (list_ascii_of_string s) = Some cps ->
  py_strip s = ""%string <-> forallb py_isspace cps = true.
Proof.
  intros Hd. unfold py_strip. rewrite Hd.
  rewrite string_of_list_ascii_empty, utf8_encode_nil, reverse_nil_iff,
    lstrip_nil_iff, forallb_reverse, forallb_lstrip, lstrip_nil_iff. done.
Qed.

Lemma upsert_all_log (accepts : movie_fields -> bool) (ps : list payload) (w : world) :
  exists l, w_log (snd (upsert_all accepts ps w)) = l ++ w_log w.
Proof.
  revert w. induction ps as [|p ps IH]; intros w; simpl.
  - by exists [].
  - unfold upsert. destruct (save_movie_and_genres_to_db accepts (w_now w) (Some p) (w_store w))
      as [o s'].
    destruct (IH (set_store s' (log_event EvStoreWrite w))) as [l Hl].
    destruct (upsert_all accepts ps (set_store s' (log_event EvStoreWrite w))) as [ms w2].
    simpl in *. exists (l ++ [EvStoreWrite]). rewrite Hl, <- app_assoc. done.
Qed.

(** C9. A missing, empty or whitespace-only [query] (whitespace in the
    sense of Python's [str.isspace], over the decoded code points) is
    answered with the 400 MISSING_QUERY error envelope and no effect at
    all (no provider call, no upsert).  Any other query passes the check:
    the provider is called with the stripped query and the answer is a
    200 success. *)
Theorem search_blank_query_rejected (P : provider) (accepts : movie_fields -> bool)
    (q : option string) (w : world) :
  forall cps, utf8_decode (list_ascii_of_string (default "" q)) = Some cps ->
  (forallb py_isspace cps = true ->
     MovieSearchView_get P accepts q w
     = (error_response "Search query parameter is required." "MISSING_QUERY" 400 JNull, w)) /\
  (forallb py_isspace cps = false ->
     exists r w', MovieSearchView_get P accepts q w = (r, w') /\ resp_status r = 200 /\
       EvProviderCall (ESearch (py_strip (default "" q))) ∈ w_log w').
Proof.
  intros cps Hd. unfold MovieSearchView_get. split.
  - intros H. apply (py_strip_empty_iff _ _ Hd) in H. by rewrite H.
  - intros H.
    assert (Hne : py_strip (default "" q) <> ""%string)
      by (intros E; apply (py_strip_empty_iff _ _ Hd) in E; congruence).
    destruct (String.eqb_spec (py_strip (default "" q)) "") as [E|_]; [congruence|].
    destruct (get_tmdb_movie_search_results P (py_strip (default "" q))) as [|p ps].
    + eexists _, _. split_and!; [reflexivity | reflexivity |]. simpl. constructor.
    + destruct (upsert_all_log accepts (p :: ps)
                  (log_event (EvProviderCall (ESearch (py_strip (default "" q)))) w))
        as [l Hl].
      destruct (upsert_all accepts (p :: ps) _) as [local w2] eqn:Eu.
      eexists _, _. split_and!; [reflexivity | reflexivity |].
      simpl in Hl. rewrite Hl. apply elem_of_app. right. constructor.
Qed.

Example search_whitespace_rejected :
  fst (MovieSearchView_get P0 all_ok (Some " 	 ") w0) =
  error_response "Search query parameter is required." "MISSING_QUERY" 400 JNull.
Proof. reflexivity. Qed.

(** Python's [str.strip()] also removes whitespace outside ASCII: a query
    of one U+00A0 or of U+3000 and a tab is rejected, and U+00A0 around a
    word is stripped before the provider call. *)
Example search_nbsp_rejected :
  fst (MovieSearchView_get P0 all_ok (Some nbsp) w0) =
  error_response "Search query parameter is required." "MISSING_QUERY" 400 JNull /\
  fst (MovieSearchView_get P0 all_ok (Some (ideographic_space +:+ "	")) w0) =
  error_response "Search query parameter is required." "MISSING_QUERY" 400 JNull.
Proof. split; reflexivity. Qed.

Example search_nbsp_stripped :
  py_strip (nbsp +:+ "Inception" +:+ nbsp) = "Inception"%string.
Proof. reflexivity. Qed.

(** ** C10: the admin predicate *)

(** C10 as stated fails: a user holding the ['admin'] role without the
    superuser flag passes the role-table check but not the check of the
    admin endpoints. *)
Lemma admin_predicates_not_equal :
  ~ (forall u, Views.admin_endpoint_permission u = Permissions.IsAdminUser_has_permission u).
Proof. intros H. specialize (H admin_role_user). vm_compute in H. discriminate. Qed.

(** C10 (amended). The admin endpoints grant access exactly to
    authenticated superusers; this agrees with the role-table check of
    core/permissions.py on a user exactly when, if authenticated, the
    user's superuser flag equals holding the ['admin'] role. *)
Theorem admin_endpoints_use_superuser_flag (u : user) :
  Views.admin_endpoint_permission u = u_is_authenticated u && u_is_superuser u /\
  (Views.admin_endpoint_permission u = Permissions.IsAdminUser_has_permission u <->
   (u_is_authenticated u = true ->
    u_is_superuser u = existsb (String.eqb "admin") (u_roles u))).
Proof.
  unfold Views.admin_endpoint_permission, Views.IsAdminUser_has_permission,
    Permissions.IsAdminUser_has_permission.
  destruct u as [[] su roles]; simpl; split; try done.
  split; [auto | intros H; by apply H].
Qed.

(** ** Genre seeding *)

Lemma genre_update_or_create_spec (ok : string -> bool) (gid : Z) (n : string)
    (gs gs' : gmap Z string) :
  genre_update_or_create ok gid n gs = Some gs' ->
  gs' = <[gid := n]> gs /\ ok n = true /\
  forall k, gs !! k = Some n -> k = gid.
Proof.
  unfold genre_update_or_create.
  destruct (ok n) eqn:Hok; simpl; [|discriminate].
  destruct (genre_name_taken gid n gs) eqn:Ht; simpl; [discriminate|].
  intros [= <-]. split_and!; [done | done |].
  intros k Hk. destruct (Z.eq_dec k gid) as [|Hne]; [done|].
  exfalso. assert (Hin : (k, n) ∈ map_to_list gs) by by apply elem_of_map_to_list.
  unfold genre_name_taken in Ht.
  assert (Hx : existsb (fun kv => negb (Z.eqb kv.1 gid) && String.eqb kv.2 n)
                 (map_to_list gs) = true).
  { apply existsb_exists. exists (k, n). split.
    - by apply list_elem_of_In.
    - simpl. apply andb_true_intro. split.
      + apply negb_true_iff, Z.eqb_neq. done.
      + apply String.eqb_refl. }
  congruence.
Qed.

Lemma genre_update_or_create_unique (ok : string -> bool) (gid : Z) (n : string)
    (gs gs' : gmap Z string) :
  genre_names_unique gs -> genre_update_or_create ok gid n gs = Some gs' ->
  genre_names_unique gs'.
Proof.
  intros Hu H. destruct (genre_update_or_create_spec ok gid n gs gs' H) as (-> & _ & Hn).
  intros k1 k2 v H1 H2.
  destruct (Z.eq_dec k1 gid) as [->|H1n]; destruct (Z.eq_dec k2 gid) as [->|H2n]; try done.
  - rewrite lookup_insert_eq in H1. injection H1 as <-.
    rewrite lookup_insert_ne in H2 by congruence. symmetry. by apply Hn.
  - rewrite lookup_insert_eq in H2. injection H2 as <-.
    rewrite lookup_insert_ne in H1 by congruence. by apply Hn.
  - rewrite lookup_insert_ne in H1 by congruence.
    rewrite lookup_insert_ne in H2 by congruence. by apply (Hu k1 k2 v).
Qed.

Lemma seed_loop_unique (ok : string -> bool) (l : list genre_entry) (gs : gmap Z string) :
  genre_names_unique gs -> genre_names_unique (seed_loop ok l gs).2.
Proof.
  revert gs. induction l as [|e l IH]; intros gs Hu; simpl; [done|].
  destruct (genre_update_or_create ok (ge_id e) (ge_name e) gs) as [gs'|] eqn:E; [|done].
  apply IH. by apply (genre_update_or_create_unique ok (ge_id e) (ge_name e) gs).
Qed.

Lemma seed_loop_true (ok : string -> bool) (l : list genre_entry) (gs gs' : gmap Z string) :
  seed_loop ok l gs = (true, gs') ->
  gs' = foldl insert_entry gs l /\ forall e, e ∈ l -> ok (ge_name e) = true.
Proof.
  revert gs. induction l as [|e l IH]; intros gs; simpl.
  - intros [= <-]. split; [done|]. intros e He. inversion He.
  - destruct (genre_update_or_create ok (ge_id e) (ge_name e) gs) as [gs1|] eqn:E;
      [|discriminate].
    destruct (genre_update_or_create_spec ok _ _ gs gs1 E) as (-> & Hok & _).
    intros H. destruct (IH _ H) as [-> Hl]. split; [done|].
    intros x Hx. apply elem_of_cons in Hx as [->|Hx]; [done|]. by apply Hl.
Qed.

Lemma seed_loop_false (ok : string -> bool) (l : list genre_entry) (gs gs' : gmap Z string) :
  seed_loop ok l gs = (false, gs') ->
  exists k, (k < length l)%nat /\ gs' = foldl insert_entry gs (take k l).
Proof.
  revert gs. induction l as [|e l IH]; intros gs; simpl; [discriminate|].
  destruct (genre_update_or_create ok (ge_id e) (ge_name e) gs) as [gs1|] eqn:E.
  - destruct (genre_update_or_create_spec ok _ _ gs gs1 E) as (-> & _ & _).
    intros H. destruct (IH _ H) as (k & Hk & ->). exists (S k). split; [lia | done].
  - intros [= <-]. exists 0%nat. split; [lia | done].
Qed.

Lemma foldl_insert_entry_notin (l : list genre_entry) (gs : gmap Z string) (k : Z) :
  k ∉ map ge_id l -> foldl insert_entry gs l !! k = gs !! k.
Proof.
  revert gs. induction l as [|e l IH]; intros gs Hk; [done|].
  simpl in Hk. apply not_elem_of_cons in Hk as [Hne Hk].
  simpl. rewrite (IH _ Hk). unfold insert_entry.
  rewrite lookup_insert_ne; [done|]. congruence.
Qed.

Lemma foldl_insert_entry_in (l : list genre_entry) (gs : gmap Z string) (e : genre_entry) :
  NoDup (map ge_id l) -> e ∈ l -> foldl insert_entry gs l !! ge_id e = Some (ge_name e).
Proof.
  revert gs. induction l as [|a l IH]; intros gs Hnd He; [inversion He|].
  simpl in Hnd |- *. apply NoDup_cons in Hnd as [Hnin Hnd].
  apply elem_of_cons in He as [->|He].
  - rewrite foldl_insert_entry_notin by done. unfold insert_entry.
    by rewrite lookup_insert_eq.
  - by apply IH.
Qed.

Lemma foldl_insert_entry_dom (l : list genre_entry) (gs : gmap Z string) (k : Z) :
  k ∈ map ge_id l -> is_Some (foldl insert_entry gs l !! k).
Proof.
  revert gs. induction l as [|a l IH]; intros gs Hk; simpl in *; [inversion Hk|].
  destruct (decide (k ∈ map ge_id l)) as [Hin|Hnin]; [by apply IH|].
  rewrite foldl_insert_entry_notin by done.
  apply elem_of_cons in Hk as [->|Hk]; [|done].
  unfold insert_entry. rewrite lookup_insert_eq. by eexists.
Qed.

Lemma seed_loop_fixed (ok : string -> bool) (l : list genre_entry) (G : gmap Z string) :
  genre_names_unique G ->
  (forall e, e ∈ l -> G !! ge_id e = Some (ge_name e) /\ ok (ge_name e) = true) ->
  seed_loop ok l G = (true, G).
Proof.
  intros Hu. induction l as [|e l IH]; intros Hl; simpl; [done|].
  destruct (Hl e ltac:(by apply elem_of_cons; left)) as [HG Hok].
  unfold genre_update_or_create. rewrite Hok.
  assert (Ht : genre_name_taken (ge_id e) (ge_name e) G = false).
  { unfold genre_name_taken. apply not_true_is_false. intros Hx.
    apply existsb_exists in Hx as ([k v] & Hin & Hkv). simpl in Hkv.
    apply andb_prop in Hkv as [Hk Hv].
    apply negb_true_iff, Z.eqb_neq in Hk. apply String.eqb_eq in Hv as ->.
    apply list_elem_of_In, elem_of_map_to_list in Hin.
    exact (Hk (Hu k (ge_id e) (ge_name e) Hin HG)). }
  rewrite Ht. simpl. rewrite insert_id by done.
  apply IH. intros x Hx. apply Hl. by apply elem_of_cons; right.
Qed.

(** What [seed_initial_genres] may return, with the state it leaves: [False]
    only with nothing written; [True] after writing every entry of the
    provider's list in order; an exception after writing a strict prefix of
    it. The Movie table is never touched. *)
Theorem seed_initial_genres_outcomes (P : provider) (ok : string -> bool) (s : store) :
  match seed_initial_genres P ok s with
  | (SeedReturned false, s') => s' = s
  | (SeedReturned true, s') =>
      movies s' = movies s /\
      exists b l, fetch_genre_list P = Some b /\ body_truthy b = true /\
        body_genres b = Some l /\ l <> [] /\
        genres s' = foldl insert_entry (genres s) l
  | (SeedRaised, s') =>
      movies s' = movies s /\
      exists b l k, fetch_genre_list P = Some b /\ body_genres b = Some l /\
        (k < length l)%nat /\ genres s' = foldl insert_entry (genres s) (take k l)
  end.
Proof.
  unfold seed_initial_genres.
  destruct (fetch_genre_list P) as [b|] eqn:Ef; [|done].
  destruct (body_truthy b) eqn:Et; [|done].
  destruct (body_genres b) as [[|e l]|] eqn:Eg; try done.
  destruct (seed_loop ok (e :: l) (genres s)) as [[] gs] eqn:El; simpl.
  - split; [done|]. destruct (seed_loop_true ok _ _ _ El) as [-> _].
    exists b, (e :: l). split_and!; done.
  - split; [done|]. destruct (seed_loop_false ok _ _ _ El) as (k & Hk & ->).
    exists b, (e :: l), k. split_and!; done.
Qed.

Lemma seed_loop_names_unique (P : provider) (ok : string -> bool) (s : store) :
  genre_names_unique (genres s) ->
  genre_names_unique (genres (seed_initial_genres P ok s).2).
Proof.
  intros Hu. unfold seed_initial_genres.
  destruct (fetch_genre_list P) as [b|]; [|done].
  destruct (body_truthy b); [|done].
  destruct (body_genres b) as [[|e l]|]; try done.
  pose proof (seed_loop_unique ok (e :: l) (genres s) Hu) as H.
  destruct (seed_loop ok (e :: l) (genres s)) as [[] gs]; exact H.
Qed.

(** Seeding keeps the Genre names unique, whatever it returns or raises. *)
Theorem seed_initial_genres_names_unique (P : provider) (ok : string -> bool) (s : store) :
  genre_names_unique (genres s) ->
  genre_names_unique (genres (seed_initial_genres P ok s).2).
Proof. exact (seed_loop_names_unique P ok s). Qed.

Lemma seed_true_spec (P : provider) (ok : string -> bool) (s s1 : store) :
  seed_initial_genres P ok s = (SeedReturned true, s1) ->
  exists b l, fetch_genre_list P = Some b /\ body_truthy b = true /\
    body_genres b = Some l /\ l <> [] /\ movies s1 = movies s /\
    genres s1 = foldl insert_entry (genres s) l /\
    forall e, e ∈ l -> ok (ge_name e) = true.
Proof.
  unfold seed_initial_genres.
  destruct (fetch_genre_list P) as [b|] eqn:Ef; [|discriminate].
  destruct (body_truthy b) eqn:Et; [|discriminate].
  destruct (body_genres b) as [[|e l]|] eqn:Eg; try discriminate.
  destruct (seed_loop ok (e :: l) (genres s)) as [[] gs] eqn:El; simpl; [|discriminate].
  intros [= <-]. destruct (seed_loop_true ok _ _ _ El) as [-> Hok].
  exists b, (e :: l). split_and!; done.
Qed.

(** After a successful seed from a list without repeated ids, every listed
    genre id names its listed genre, and genres not listed are unchanged. *)
Theorem seed_initial_genres_contents (P : provider) (ok : string -> bool)
    (s s1 : store) (b : tmdb_body) (l : list genre_entry) :
  fetch_genre_list P = Some b -> body_genres b = Some l -> NoDup (map ge_id l) ->
  seed_initial_genres P ok s = (SeedReturned true, s1) ->
  movies s1 = movies s /\
  (forall e, e ∈ l -> genres s1 !! ge_id e = Some (ge_name e)) /\
  (forall k, k ∉ map ge_id l -> genres s1 !! k = genres s !! k).
Proof.
  intros Hf Hg Hnd Hs.
  destruct (seed_true_spec P ok s s1 Hs) as (b' & l' & Hf' & _ & Hg' & _ & Hm & HG & _).
  rewrite Hf in Hf'. injection Hf' as <-. rewrite Hg in Hg'. injection Hg' as <-.
  split_and!; [done | | ].
  - intros e He. rewrite HG. by apply foldl_insert_entry_in.
  - intros k Hk. rewrite HG. by apply foldl_insert_entry_notin.
Qed.

(** Running the seed again after a successful one, on a Genre table whose
    names were unique, succeeds and changes nothing, provided the provider
    returns the same list without repeated ids. *)
Theorem seed_initial_genres_idempotent (P : provider) (ok : string -> bool)
    (s s1 : store) (b : tmdb_body) (l : list genre_entry) :
  genre_names_unique (genres s) ->
  fetch_genre_list P = Some b -> body_genres b = Some l -> NoDup (map ge_id l) ->
  seed_initial_genres P ok s = (SeedReturned true, s1) ->
  seed_initial_genres P ok s1 = (SeedReturned true, s1).
Proof.
  intros Hu Hf Hg Hnd Hs.
  destruct (seed_true_spec P ok s s1 Hs) as (b' & l' & Hf' & Ht & Hg' & Hne & Hm & HG & Hok).
  rewrite Hf in Hf'. injection Hf' as <-. rewrite Hg in Hg'. injection Hg' as <-.
  assert (Hu1 : genre_names_unique (genres s1)).
  { pose proof (seed_loop_names_unique P ok s Hu) as H. by rewrite Hs in H. }
  unfold seed_initial_genres. rewrite Hf, Ht, Hg.
  destruct l as [|e l]; [done|].
  rewrite seed_loop_fixed; [by destruct s1 | done |].
  intros x Hx. split; [rewrite HG; by apply foldl_insert_entry_in | by apply Hok].
Qed.

(** After a successful seed, an accepted upsert of a movie payload links
    every genre id of the payload that the seeded list provides. *)
Theorem seed_then_upsert_links (P : provider) (ok : string -> bool)
    (accepts : movie_fields -> bool) (now : Z) (s s1 : store) (b : tmdb_body)
    (l : list genre_entry) (d : payload) (tid : Z) :
  store_wf s ->
  seed_initial_genres P ok s = (SeedReturned true, s1) ->
  fetch_genre_list P = Some b -> body_genres b = Some l ->
  p_id d = Some tid -> tid <> 0 -> accepts (movie_defaults d) = true ->
  exists m s2, save_movie_and_genres_to_db accepts now (Some d) s1 = (Some m, s2) /\
    forall g, g ∈ genre_ids_from_tmdb d -> g ∈ map ge_id l -> g ∈ m_genres m.
Proof.
  intros Hwf Hs Hf Hg Hid Hnz Hacc.
  destruct (seed_true_spec P ok s s1 Hs) as (b' & l' & Hf' & _ & Hg' & _ & Hm & HG & _).
  rewrite Hf in Hf'. injection Hf' as <-. rewrite Hg in Hg'. injection Hg' as <-.
  assert (Hwf1 : store_wf s1) by (unfold store_wf in *; by rewrite Hm).
  destruct (upsert_spec accepts now d tid s1 Hwf1 (id_truthy_valid _ _ Hid Hnz) Hacc)
    as (m & s2 & Hsave & _ & _ & _ & _ & _ & _ & Hgen & _).
  exists m, s2. split; [done|].
  intros g Hgd Hgl. rewrite Hgen. apply elem_of_union. right.
  apply elem_of_genre_filter. split; [done|].
  rewrite HG. apply elem_of_dom. by apply foldl_insert_entry_dom.
Qed.

Lemma save_keeps_rows (accepts : movie_fields -> bool) (now : Z) (inp : option payload)
    (s : store) (mid tid : Z) :
  store_wf s -> has_row mid tid s ->
  has_row mid tid (save_movie_and_genres_to_db accepts now inp s).2.
Proof.
  intros Hwf (r & Hr & Hmid & Htid).
  destruct (save_cases accepts now inp s) as [E | (d & tid' & -> & Hid & Hacc)].
  { rewrite E. by exists r. }
  destruct (upsert_spec accepts now d tid' s Hwf Hid Hacc)
    as (m & s' & Hsave & _ & Hrows & _ & Hmt & _ & _ & _ & Hoth & Hold).
  rewrite Hsave. simpl.
  destruct (Z.eq_dec tid tid') as [<-|Hne].
  - assert (Hrr : rows_with_tmdb tid s = [r]).
    { assert (Hin : r ∈ rows_with_tmdb tid s) by (apply rows_with_tmdb_elem; done).
      destruct (rows_with_tmdb tid s) as [|r1 [|r2 l]] eqn:E.
      - inversion Hin.
      - apply list_elem_of_singleton in Hin. by subst.
      - exfalso. exact (rows_with_tmdb_at_most_one tid s r1 r2 l Hwf E). }
    destruct (Hold r Hrr) as [Hm _].
    exists m. split_and!; [| congruence | done].
    apply (rows_with_tmdb_elem tid s' m). rewrite Hrows. by constructor.
  - exists r. split_and!; [| done | done].
    apply Hoth; [congruence | done].
Qed.

Lemma save_result_row (accepts : movie_fields -> bool) (now : Z) (inp : option payload)
    (s : store) (m : movie_row) (s' : store) :
  store_wf s -> save_movie_and_genres_to_db accepts now inp s = (Some m, s') ->
  store_wf s' /\ has_row (m_id m) (tmdb_id m) s' /\ genres s' = genres s.
Proof.
  intros Hwf H.
  destruct (save_cases accepts now inp s) as [E | (d & tid & -> & Hid & Hacc)].
  { rewrite E in H. discriminate. }
  destruct (upsert_spec accepts now d tid s Hwf Hid Hacc)
    as (m' & s'' & Hsave & Hwf' & Hrows & Hg & _).
  rewrite Hsave in H. injection H as <- <-.
  split_and!; [done | | done].
  exists m'. split_and!; [| done | done].
  assert (Hin : m' ∈ rows_with_tmdb tid s'') by (rewrite Hrows; constructor).
  apply rows_with_tmdb_elem in Hin as [_ Hin]. exact Hin.
Qed.

Lemma save_genres (accepts : movie_fields -> bool) (now : Z) (inp : option payload)
    (s : store) :
  store_wf s ->
  store_wf (save_movie_and_genres_to_db accepts now inp s).2 /\
  genres (save_movie_and_genres_to_db accepts now inp s).2 = genres s.
Proof.
  intros Hwf.
  destruct (save_movie_and_genres_to_db accepts now inp s) as [[m|] s'] eqn:E.
  - destruct (save_result_row accepts now inp s m s' Hwf E) as (? & _ & ?). done.
  - destruct (save_cases accepts now inp s) as [E' | (d & tid & -> & Hid & Hacc)].
    + rewrite E in E'. injection E' as ->. done.
    + destruct (upsert_spec accepts now d tid s Hwf Hid Hacc) as (m & s2 & Hs & _).
      congruence.
Qed.

Lemma upsert_all_wf (accepts : movie_fields -> bool) (ps : list payload) (w : world) :
  store_wf (w_store w) ->
  let '(local, w') := upsert_all accepts ps w in
  store_wf (w_store w') /\ (length local <= length ps)%nat /\
  (forall m, m ∈ local -> has_row (m_id m) (tmdb_id m) (w_store w')) /\
  genres (w_store w') = genres (w_store w) /\ w_cache w' = w_cache w /\
  w_interactions w' = w_interactions w.
Proof.
  revert w. induction ps as [|p ps IH]; intros w Hwf; simpl.
  - split_and!; try done; try (simpl; lia). intros m Hm. inversion Hm.
  - unfold upsert.
    destruct (save_movie_and_genres_to_db accepts (w_now w) (Some p) (w_store w))
      as [o s1] eqn:E.
    destruct (save_genres accepts (w_now w) (Some p) (w_store w) Hwf) as [Hwf1 Hg1].
    rewrite E in Hwf1, Hg1. simpl in Hwf1, Hg1.
    set (w1 := set_store s1 (log_event EvStoreWrite w)).
    specialize (IH w1 Hwf1).
    destruct (upsert_all accepts ps w1) as [ms w2] eqn:E2.
    destruct IH as (Hwf2 & Hlen & Hrows & Hg2 & Hc2 & Hi2).
    split_and!; [done | | | | done | done].
    + destruct o; simpl; lia.
    + intros m Hm. destruct o as [m0|]; [|by apply Hrows].
      apply elem_of_cons in Hm as [->|Hm]; [|by apply Hrows].
      destruct (save_result_row _ _ _ _ _ _ Hwf E) as (_ & Hr0 & _).
      (* the row of [m0] survives the later upserts *)
      assert (Hkeep : forall qs (w3 : world), store_wf (w_store w3) ->
                has_row (m_id m0) (tmdb_id m0) (w_store w3) ->
                has_row (m_id m0) (tmdb_id m0) (w_store (upsert_all accepts qs w3).2)).
      { induction qs as [|q qs IHq]; intros w3 Hw3 Hh; simpl; [done|].
        unfold upsert.
        destruct (save_movie_and_genres_to_db accepts (w_now w3) (Some q) (w_store w3))
          as [o3 s3] eqn:E3.
        pose proof (save_keeps_rows accepts (w_now w3) (Some q) (w_store w3) _ _ Hw3 Hh) as Hk.
        destruct (save_genres accepts (w_now w3) (Some q) (w_store w3) Hw3) as [Hw3' _].
        rewrite E3 in Hk, Hw3'. simpl in Hk, Hw3'.
        specialize (IHq (set_store s3 (log_event EvStoreWrite w3)) Hw3' Hk).
        destruct (upsert_all accepts qs (set_store s3 (log_event EvStoreWrite w3))).
        exact IHq. }
      pose proof (Hkeep ps w1 Hwf1 Hr0) as H. rewrite E2 in H. exact H.
    + rewrite Hg2. exact Hg1.
Qed.

(** The upsert loops of the list views keep the schema constraints, leave
    the Genre table, the cache and the interactions as they are, return at
    most one movie per provider record, and every movie returned still has
    its row (same internal id and TMDb id) in the store at the end. *)
Theorem upsert_all_spec (accepts : movie_fields -> bool) (ps : list payload) (w : world) :
  store_wf (w_store w) ->
  let '(local, w') := upsert_all accepts ps w in
  store_wf (w_store w') /\ (length local <= length ps)%nat /\
  (forall m, m ∈ local -> has_row (m_id m) (tmdb_id m) (w_store w')) /\
  genres (w_store w') = genres (w_store w) /\ w_cache w' = w_cache w /\
  w_interactions w' = w_interactions w.
Proof. exact (upsert_all_wf accepts ps w). Qed.

Lemma upsert_all_cache (accepts : movie_fields -> bool) (ps : list payload) (w : world) :
  w_cache (upsert_all accepts ps w).2 = w_cache w.
Proof.
  revert w. induction ps as [|p ps IH]; intros w; simpl; [done|].
  unfold upsert. destruct (save_movie_and_genres_to_db accepts (w_now w) (Some p) (w_store w))
    as [o s1].
  specialize (IH (set_store s1 (log_event EvStoreWrite w))).
  destruct (upsert_all accepts ps (set_store s1 (log_event EvStoreWrite w))). exact IH.
Qed.

Lemma trending_miss_log (P : provider) (accepts : movie_fields -> bool) (w : world) :
  exists l, w_log (trending_miss P accepts w).2 = l ++ EvProviderCall ETrending :: w_log w.
Proof.
  unfold trending_miss.
  destruct (get_tmdb_trending_movies P) as [|p ps].
  - by exists [].
  - destruct (upsert_all_log accepts (p :: ps) (log_event (EvProviderCall ETrending) w))
      as [l Hl].
    destruct (upsert_all accepts (p :: ps) (log_event (EvProviderCall ETrending) w))
      as [local w2].
    simpl in *. exists (EvCacheSet "trending_movies" :: l). by rewrite Hl.
Qed.

(** On a trending cache miss, a provider that yields no results gives 503
    with the store and the cache untouched; otherwise the answer is 200,
    which caches the
    serialized list of the saved movies for an hour; the next request is
    then served from the cache, without a provider call, exactly when at
    least one movie was saved: an empty cached list is falsy, so the next
    request calls the provider again. *)
Theorem trending_cache_miss (P : provider) (accepts : movie_fields -> bool)
    (w w1 : world) (r1 : response) :
  cache_get "trending_movies" w = None ->
  TrendingMoviesView_get P accepts w = (r1, w1) ->
  (get_tmdb_trending_movies P = [] /\
   r1 = error_response "Could not fetch trending movies." "TMDB_API_ERROR" 503 JNull /\
   w_store w1 = w_store w /\ w_cache w1 = w_cache w) \/
  (exists local,
     get_tmdb_trending_movies P <> [] /\
     r1 = success_response (serialize_movies (w_store w1) local) default_message 200 /\
     w_cache w1 !! "trending_movies" = Some (serialize_movies (w_store w1) local, 3600) /\
     (local <> [] -> TrendingMoviesView_get P accepts w1 = (r1, w1)) /\
     (local = [] -> exists l,
        w_log (TrendingMoviesView_get P accepts w1).2 = l ++ EvProviderCall ETrending :: w_log w1)).
Proof.
  intros Hmiss. unfold TrendingMoviesView_get at 1. rewrite Hmiss. unfold trending_miss.
  destruct (get_tmdb_trending_movies P) as [|p ps] eqn:Et.
  - intros [= <- <-]. left. done.
  - destruct (upsert_all accepts (p :: ps) (log_event (EvProviderCall ETrending) w))
      as [local w2] eqn:Eu.
    intros [= <- <-]. right. exists local.
    set (ser := serialize_movies (w_store w2) local).
    split_and!.
    + discriminate.
    + done.
    + unfold cache_set. simpl. by rewrite lookup_insert_eq.
    + intros Hne. unfold TrendingMoviesView_get.
      rewrite cache_get_set.
      destruct local as [|m local]; [done|]. done.
    + intros ->. unfold TrendingMoviesView_get. rewrite cache_get_set. simpl.
      apply trending_miss_log.
Qed.

Lemma save_none (accepts : movie_fields -> bool) (now : Z) (inp : option payload)
    (s : store) :
  (save_movie_and_genres_to_db accepts now inp s).1 = None ->
  save_movie_and_genres_to_db accepts now inp s = (None, s).
Proof.
  unfold save_movie_and_genres_to_db.
  destruct inp as [d|]; [|done].
  destruct (id_truthy (p_id d)); [|done].
  destruct (update_or_create accepts now z (movie_defaults d) s) as [[[m c] s1]|]; [|done].
  destruct (genre_ids_from_tmdb d); [discriminate|].
  destruct (add_genres m _ s1). discriminate.
Qed.

(** When the detail path falls through to the provider and the provider's
    dict cannot be saved (no usable id, or a rejected write), the view
    still answers 200 and caches for 24h the serializer's initial data for
    no instance, an empty-title record, with the store unchanged. *)
Theorem detail_unsaved_payload_cached (P : provider) (accepts : movie_fields -> bool)
    (tid : Z) (w : world) (b : tmdb_body) :
  cache_get (detail_cache_key tid) w = None ->
  rows_with_tmdb tid (w_store w) = [] ->
  get_tmdb_movie_details P tid = Some b -> body_truthy b = true ->
  (save_movie_and_genres_to_db accepts (w_now w) (Some (body_payload b)) (w_store w)).1 = None ->
  let initial := JObj [("title", JStr ""); ("overview", JStr "");
                       ("poster_path", JStr ""); ("release_date", JNull)] in
  exists w1, MovieDetailByTmdbIdView_get P accepts tid w
             = (success_response initial default_message 200, w1) /\
    w_cache w1 !! detail_cache_key tid = Some (initial, 86400) /\
    w_store w1 = w_store w.
Proof.
  intros Hmiss Hrows Hb Ht Hsave initial.
  unfold MovieDetailByTmdbIdView_get. rewrite Hmiss. unfold detail_miss.
  simpl w_store. rewrite Hrows, Hb, Ht. unfold upsert. simpl w_store. simpl w_now.
  rewrite (save_none _ _ _ _ Hsave).
  eexists. split_and!; [reflexivity | | done].
  unfold cache_set. simpl. by rewrite lookup_insert_eq.
Qed.

(** When the detail path falls through to the provider and the provider
    gives nothing usable, the view answers 404 TMDB_MOVIE_NOT_FOUND and
    caches nothing, with the store unchanged. *)
Theorem detail_provider_unavailable (P : provider) (accepts : movie_fields -> bool)
    (tid : Z) (w : world) :
  cache_get (detail_cache_key tid) w = None ->
  rows_with_tmdb tid (w_store w) = [] ->
  (get_tmdb_movie_details P tid = None \/
   exists b, get_tmdb_movie_details P tid = Some b /\ body_truthy b = false) ->
  exists w1, MovieDetailByTmdbIdView_get P accepts tid w
             = (error_response ("Movie with TMDb ID " +:+ pretty tid +:+ " not found.")
                  "TMDB_MOVIE_NOT_FOUND" 404 JNull, w1) /\
    w_cache w1 = w_cache w /\ w_store w1 = w_store w.
Proof.
  intros Hmiss Hrows Hb.
  unfold MovieDetailByTmdbIdView_get. rewrite Hmiss. unfold detail_miss.
  simpl w_store. rewrite Hrows.
  destruct Hb as [-> | (b & -> & ->)]; eexists; split_and!; reflexivity.
Qed.

(** [MovieDetailView] is read-only, answers 200 with the serialized row for
    a known internal id and 500 SERVER_ERROR for an unknown one: the
    [Http404] of [get_object_or_404] is not [Movie.DoesNotExist], so the
    404 branch is never taken. *)
Theorem movie_detail_view_outcomes (mid : Z) (w : world) :
  let '(r, w1) := MovieDetailView_get mid w in
  w_store w1 = w_store w /\ w_cache w1 = w_cache w /\ resp_status r <> 404 /\
  (forall m, find_movie mid (w_store w) = Some m ->
     r = success_response (serialize_movie (w_store w) m) default_message 200) /\
  (find_movie mid (w_store w) = None ->
     r = error_response "An unexpected error occurred while fetching movie details."
           "SERVER_ERROR" 500 JNull).
Proof.
  unfold MovieDetailView_get.
  destruct (find_movie mid (w_store w)) as [m|] eqn:E; simpl.
  - split_and!; try done. intros m' [= <-]. done.
  - split_and!; done.
Qed.

(** [MovieRecommendationsView] answers 500 SERVER_ERROR, without calling
    the provider, for an unknown internal id (the 404 branch is never
    taken). For a known movie it asks the provider for the recommendations
    of that movie's TMDb id; without provider results it answers 200 with
    an empty list and writes nothing. Every run keeps the store's schema
    constraints and never touches the cache. *)
Theorem movie_recommendations_view_outcomes (P : provider) (accepts : movie_fields -> bool)
    (mid : Z) (w : world) :
  store_wf (w_store w) ->
  let '(r, w1) := MovieRecommendationsView_get P accepts mid w in
  store_wf (w_store w1) /\ w_cache w1 = w_cache w /\ resp_status r <> 404 /\
  (find_movie mid (w_store w) = None ->
     r = error_response "An unexpected error occurred while fetching recommendations."
           "SERVER_ERROR" 500 JNull /\ w1 = log_event EvStoreRead w) /\
  (forall base, find_movie mid (w_store w) = Some base ->
     EvProviderCall (ERecommendations (tmdb_id base)) ∈ w_log w1 /\
     (get_tmdb_movie_recommendations P (tmdb_id base) = [] ->
        r = success_response (JArr []) "No recommendations found for this movie." 200 /\
        w_store w1 = w_store w)).
Proof.
  intros Hwf. unfold MovieRecommendationsView_get.
  destruct (find_movie mid (w_store w)) as [base|] eqn:E; cbn [get_object_or_404].
  - destruct (get_tmdb_movie_recommendations P (tmdb_id base)) as [|p ps] eqn:Er.
    + split_and!; try done. intros base' [= <-]. split; [| done].
      simpl. apply elem_of_cons. by left.
    + set (w2 := log_event (EvProviderCall (ERecommendations (tmdb_id base)))
                   (log_event EvStoreRead w)).
      pose proof (upsert_all_wf accepts (p :: ps) w2 Hwf) as Hsp.
      pose proof (upsert_all_log accepts (p :: ps) w2) as [l Hl].
      pose proof (upsert_all_cache accepts (p :: ps) w2) as Hc.
      destruct (upsert_all accepts (p :: ps) w2) as [local w3] eqn:Eu.
      destruct Hsp as (Hwf3 & _). simpl in Hl, Hc.
      simpl. split_and!; try done.
      intros base' [= <-]. split; [| intros ?; congruence].
      rewrite Hl. apply elem_of_app. right. apply elem_of_cons. by left.
  - split_and!; done.
Qed.

(** The search view never writes the cache (despite its comments) and
    keeps the store's schema constraints and Genre table; when the
    provider yields no results it writes nothing. *)
Theorem search_cache_untouched (P : provider) (accepts : movie_fields -> bool)
    (q : option string) (w : world) :
  store_wf (w_store w) ->
  let '(r, w1) := MovieSearchView_get P accepts q w in
  w_cache w1 = w_cache w /\ store_wf (w_store w1) /\
  genres (w_store w1) = genres (w_store w) /\
  (get_tmdb_movie_search_results P (py_strip (default "" q)) = [] -> w_store w1 = w_store w).
Proof.
  intros Hwf. unfold MovieSearchView_get.
  destruct (String.eqb (py_strip (default "" q)) "") eqn:Eq; [done|].
  destruct (get_tmdb_movie_search_results P (py_strip (default "" q))) as [|p ps] eqn:Es.
  - done.
  - set (w2 := log_event (EvProviderCall (ESearch (py_strip (default "" q)))) w).
    pose proof (upsert_all_wf accepts (p :: ps) w2 Hwf) as Hsp.
    pose proof (upsert_all_cache accepts (p :: ps) w2) as Hc.
    destruct (upsert_all accepts (p :: ps) w2) as [local w3].
    destruct Hsp as (Hwf3 & _ & _ & Hg3 & _). simpl in Hc.
    split_and!; try done.
Qed.

Lemma find_movie_id (mid : Z) (s : store) (m : movie_row) :
  find_movie mid s = Some m -> m_id m = mid /\ m ∈ movies s.
Proof.
  unfold find_movie. destruct (list_find (fun x => m_id x = mid) (movies s)) as [[k x]|] eqn:E;
    [|discriminate].
  intros [= <-]. apply list_find_Some in E as (Hk & Hx & _). split; [done|].
  by eapply list_elem_of_lookup_2.
Qed.

Lemma fresh_interaction_id_new (l : list interaction) :
  fresh_interaction_id l ∉ map i_id l.
Proof.
  intros H. apply foldr_max_ge in H. unfold fresh_interaction_id in H. lia.
Qed.

Lemma existsb_triple_false (u : Z) (mid : Z) (t : interaction_type) (l : list interaction) :
  existsb (fun i => bool_decide (i_user i = u /\ i_movie i = mid /\ i_type i = t)) l = false ->
  (u, mid, t) ∉ map (fun i => (i_user i, i_movie i, i_type i)) l.
Proof.
  intros H Hin. apply elem_of_map_iff in Hin as (i & Heq & Hi).
  assert (Hx : existsb (fun i => bool_decide (i_user i = u /\ i_movie i = mid /\ i_type i = t))
                 l = true).
  { apply existsb_exists. exists i. split; [by apply list_elem_of_In|].
    apply bool_decide_eq_true. injection Heq as -> -> ->. done. }
  congruence.
Qed.

Lemma existsb_triple_true (u : Z) (mid : Z) (t : interaction_type) (l : list interaction) :
  existsb (fun i => bool_decide (i_user i = u /\ i_movie i = mid /\ i_type i = t)) l = true <->
  exists i, i ∈ l /\ i_user i = u /\ i_movie i = mid /\ i_type i = t.
Proof.
  rewrite existsb_exists. split.
  - intros (i & Hi & Hb). apply bool_decide_eq_true in Hb. exists i.
    split; [by apply list_elem_of_In | done].
  - intros (i & Hi & Hb). exists i. split; [by apply list_elem_of_In|].
    by apply bool_decide_eq_true.
Qed.

Lemma NoDup_map_filter {A B} (f : A -> B) (P : A -> Prop) `{!forall x, Decision (P x)}
    (l : list A) :
  NoDup (map f l) -> NoDup (map f (filter P l)).
Proof.
  induction l as [|a l IH]; intros Hnd; simpl in *; [done|].
  apply NoDup_cons in Hnd as [Hn Hnd].
  rewrite filter_cons. destruct (decide (P a)); simpl; [|by apply IH].
  apply NoDup_cons. split; [|by apply IH].
  intros Hin. apply Hn. apply elem_of_map_iff in Hin as (x & Hx & Hxin).
  apply elem_of_map_iff. exists x. split; [done|].
  by apply list_elem_of_filter in Hxin as [_ ?].
Qed.

(** The interaction views keep the primary key and the
    [unique_together = ('user', 'movie', 'interaction_type')] constraint of
    UserMovieInteraction: no request creates a second row for a triple. *)
Theorem interaction_views_keep_unique (u : Z) (w : world) :
  interactions_wf (w_interactions w) ->
  (forall movie_in type_in,
     interactions_wf (w_interactions (UserInteractionsView_post u movie_in type_in w).2)) /\
  (forall iid, interactions_wf (w_interactions (UserInteractionDetailView_delete u iid w).2)).
Proof.
  intros [Hid Htr]. split.
  - intros movie_in type_in. unfold UserInteractionsView_post.
    destruct (movie_in ≫= (fun m => find_movie m (w_store w))) as [m|];
      destruct (type_in ≫= parse_interaction_type) as [t|]; try (split; done).
    destruct (existsb _ (w_interactions w)) eqn:Ex; [split; done|].
    simpl. unfold interactions_wf. rewrite !map_app. simpl. split.
    + apply NoDup_app. split_and!; [done | | apply NoDup_singleton].
      intros x Hx ->%list_elem_of_singleton. by apply (fresh_interaction_id_new (w_interactions w)).
    + apply NoDup_app. split_and!; [done | | apply NoDup_singleton].
      intros x Hx ->%list_elem_of_singleton. by apply (existsb_triple_false u (m_id m) t _ Ex).
  - intros iid. unfold UserInteractionDetailView_delete.
    destruct (list_find _ (w_interactions w)); [|split; done].
    simpl. split; by apply NoDup_map_filter.
Qed.

(** [UserInteractionsView.post] by outcome: a missing or unknown movie or a
    missing or unknown interaction type gives 400 VALIDATION_ERROR with the
    offending fields in [details]; a triple the user already has gives 409
    DUPLICATE_INTERACTION; otherwise 201 with one new row of a fresh id.
    Only the interaction table is ever written. *)
Theorem interaction_post_outcomes (u : Z) (movie_in : option Z) (type_in : option string)
    (w : world) :
  let '(r, w1) := UserInteractionsView_post u movie_in type_in w in
  w_store w1 = w_store w /\ w_cache w1 = w_cache w /\
  (((movie_in ≫= (fun m => find_movie m (w_store w))) = None \/
    (type_in ≫= parse_interaction_type) = None) ->
   exists errs, errs <> [] /\
     r = error_response "Invalid data provided." "VALIDATION_ERROR" 400 (JObj errs) /\ w1 = w) /\
  (forall mid m t, movie_in = Some mid -> find_movie mid (w_store w) = Some m ->
     (type_in ≫= parse_interaction_type) = Some t ->
     ((exists i, i ∈ w_interactions w /\ i_user i = u /\ i_movie i = mid /\ i_type i = t) ->
        r = error_response "This interaction already exists." "DUPLICATE_INTERACTION" 409 JNull /\
        w1 = w) /\
     (~ (exists i, i ∈ w_interactions w /\ i_user i = u /\ i_movie i = mid /\ i_type i = t) ->
        resp_status r = 201 /\
        exists iid, (iid ∉ map i_id (w_interactions w)) /\
          w_interactions w1 = w_interactions w ++ [mk_interaction iid u mid t])).
Proof.
  unfold UserInteractionsView_post.
  destruct (movie_in ≫= (fun m => find_movie m (w_store w))) as [m|] eqn:Em;
    destruct (type_in ≫= parse_interaction_type) as [t|] eqn:Et.
  - destruct (existsb _ (w_interactions w)) eqn:Ex; simpl.
    + split_and!; try done.
      * intros [H|H]; discriminate.
      * intros mid m' t' -> Hm [= <-]. simpl in Em. rewrite Hm in Em. injection Em as <-.
        destruct (find_movie_id _ _ _ Hm) as [Hid _]. subst mid.
        split; [done|]. intros Hn. exfalso. apply Hn. by apply existsb_triple_true.
    + split_and!; try done.
      * intros [H|H]; discriminate.
      * intros mid m' t' -> Hm [= <-]. simpl in Em. rewrite Hm in Em. injection Em as <-.
        destruct (find_movie_id _ _ _ Hm) as [Hid _]. subst mid.
        split.
        -- intros Hy. apply existsb_triple_true in Hy. congruence.
        -- intros _. split; [done|]. eexists. split; [apply fresh_interaction_id_new | done].
  - simpl. split_and!; try done.
    intros _. eexists. split; [|done].
      unfold interaction_errors. destruct type_in as [ty|]; simpl in Et |- *.
      + rewrite Et. destruct movie_in as [mid|]; [|done].
        destruct (find_movie mid (w_store w)); simpl; discriminate.
      + destruct movie_in as [mid|]; [|done].
        destruct (find_movie mid (w_store w)); simpl; discriminate.
  - simpl. split_and!; try done.
    + intros _. eexists. split; [|done].
      unfold interaction_errors. destruct movie_in as [mid|]; simpl in Em |- *; [|discriminate].
      rewrite Em. discriminate.
    + intros mid m' t' -> Hm _. simpl in Em. congruence.
  - simpl. split_and!; try done.
    intros _. eexists. split; [|done].
    unfold interaction_errors. destruct movie_in as [mid|]; simpl in Em |- *; [|discriminate].
    rewrite Em. discriminate.
Qed.

(** [UserInteractionDetailView.delete] removes an interaction only for its
    owner: when no interaction with that id belongs to the user (absent, or
    another user's) it answers 404 and writes nothing; otherwise it answers
    204 and removes exactly the row with that id. *)
Theorem interaction_delete_outcomes (u iid : Z) (w : world) :
  ((forall i, i ∈ w_interactions w -> i_id i = iid -> i_user i <> u) ->
   UserInteractionDetailView_delete u iid w = (drf_not_found "UserMovieInteraction", w)) /\
  (forall i, i ∈ w_interactions w -> i_id i = iid -> i_user i = u ->
   exists w1, UserInteractionDetailView_delete u iid w
              = (success_response JNull "Interaction deleted successfully." 204, w1) /\
     w_store w1 = w_store w /\
     forall j, j ∈ w_interactions w1 <-> j ∈ w_interactions w /\ i_id j <> iid).
Proof.
  unfold UserInteractionDetailView_delete. split.
  - intros H. destruct (list_find _ (w_interactions w)) as [[k x]|] eqn:E; [|done].
    exfalso. apply list_find_Some in E as (Hk & [Hx1 Hx2] & _).
    apply (H x); [by eapply list_elem_of_lookup_2 | done | done].
  - intros i Hi Hid Hu. destruct (list_find _ (w_interactions w)) as [[k x]|] eqn:E.
    + eexists. split_and!; [reflexivity | done |].
      intros j. simpl. rewrite list_elem_of_filter. tauto.
    + exfalso. apply list_find_None in E. rewrite Forall_forall in E.
      by apply (E i Hi).
Qed.

Lemma find_movie_self (mid : Z) (s : store) (m : movie_row) :
  find_movie mid s = Some m -> find_movie (m_id m) s = Some m.
Proof. intros H. by destruct (find_movie_id _ _ _ H) as [-> _]. Qed.

Lemma liked_genres_ids_snoc (u : Z) (w : world) (i : interaction) (m : movie_row) :
  i_user i = u -> i_type i = LIKED -> find_movie (i_movie i) (w_store w) = Some m ->
  liked_genres_ids u (set_interactions (w_interactions w ++ [i]) w)
  = liked_genres_ids u w ∪ m_genres m.
Proof.
  intros Hu Ht Hm. unfold liked_genres_ids. simpl. rewrite foldl_app. simpl.
  rewrite decide_True by done. by rewrite Hm.
Qed.

(** Liking a movie feeds the personalised recommendations: after a 201
    answer to a LIKED post for a movie with genres, the user's liked-genre
    set contains that movie's genres, [UserRecommendationsView.get] takes
    the personalised branch, and the liked movie itself is never among the
    recommended movies. *)
Theorem like_then_recommend (P : provider) (accepts : movie_fields -> bool)
    (u mid : Z) (w w1 : world) (r : response) (m : movie_row) :
  UserInteractionsView_post u (Some mid) (Some "LIKED"%string) w = (r, w1) ->
  resp_status r = 201 ->
  find_movie mid (w_store w) = Some m ->
  m_genres m <> ∅ ->
  m_genres m ⊆ liked_genres_ids u w1 /\
  exists ms,
    fst (UserRecommendationsView_get P accepts u w1)
    = success_response (serialize_movies (w_store w) ms)
        "Personalized recommendations generated." 200 /\
    m ∉ ms.
Proof.
  intros Hpost H201 Hm Hg. unfold UserInteractionsView_post in Hpost. simpl in Hpost.
  rewrite Hm in Hpost.
  destruct (existsb _ (w_interactions w)) eqn:Ex; injection Hpost as <- <-;
    [simpl in H201; discriminate|].
  set (i := mk_interaction (fresh_interaction_id (w_interactions w)) u (m_id m) LIKED).
  assert (HL : liked_genres_ids u (set_interactions (w_interactions w ++ [i]) w)
               = liked_genres_ids u w ∪ m_genres m)
    by (apply liked_genres_ids_snoc; [done | done | by apply (find_movie_self mid)]).
  rewrite HL. split; [set_solver|].
  unfold UserRecommendationsView_get. rewrite HL.
  rewrite decide_False by set_solver. simpl. eexists. split; [reflexivity|].
  intros Hin.
  destruct (recommended_movies_spec (liked_genres_ids u w ∪ m_genres m)
              (interacted_movie_ids u (set_interactions (w_interactions w ++ [i]) w))
              (movies (w_store w))) as (Hmem & _).
  destruct (Hmem m Hin) as (_ & _ & Hex).
  apply (proj1 (interacted_movie_ids_spec _ _ _)) with (i := i) in Hex; [done| |done].
  simpl. apply elem_of_app. right. by apply list_elem_of_singleton.
Qed.

Lemma find_account_cons (uid : Z) (x : account) (us : list account) :
  find_account uid (x :: us) = if decide (a_id x = uid) then Some x else find_account uid us.
Proof.
  unfold find_account. simpl. destruct (decide (a_id x = uid)); [done|].
  by destruct (list_find _ us) as [[k y]|].
Qed.

Lemma find_account_spec (uid : Z) (us : list account) (a : account) :
  find_account uid us = Some a -> a_id a = uid /\ a ∈ us.
Proof.
  induction us as [|x us IH]; [discriminate|]. rewrite find_account_cons.
  destruct (decide (a_id x = uid)).
  - intros [= <-]. split; [done | apply elem_of_cons; auto].
  - intros H. destruct (IH H). split; [done | apply elem_of_cons; auto].
Qed.

Lemma find_account_None (uid : Z) (us : list account) :
  find_account uid us = None <-> forall a, a ∈ us -> a_id a <> uid.
Proof.
  induction us as [|x us IH]; rewrite ?find_account_cons.
  - split; [intros _ a Ha; inversion Ha | done].
  - destruct (decide (a_id x = uid)) as [Hx|Hx]; split.
    + discriminate.
    + intros H. exfalso. apply (H x); [apply elem_of_cons; auto | done].
    + intros H a Ha. apply elem_of_cons in Ha as [-> | Ha]; [done|]. by apply IH.
    + intros H. apply IH. intros a Ha. apply H. apply elem_of_cons; auto.
Qed.




Lemma update_account_ids (a : account) (rs : list string) (us : list account) :
  map a_id (update_account (with_roles a rs) us) = map a_id us.
Proof.
  unfold update_account. rewrite map_map. apply map_ext. intros x. simpl.
  destruct (decide (a_id x = a_id a)); simpl; congruence.
Qed.

Lemma update_account_fields {B} (f : account -> B) (a : account) (rs : list string)
    (us : list account) :
  (forall b, f (with_roles b rs) = f b) ->
  a ∈ us -> NoDup (map a_id us) ->
  map f (update_account (with_roles a rs) us) = map f us.
Proof.
  intros Hf Ha Hnd. unfold update_account. rewrite map_map. apply map_ext_in.
  intros x Hx%list_elem_of_In. simpl.
  destruct (decide (a_id x = a_id a)) as [E|]; [|done].
  rewrite Hf. f_equal. symmetry. exact (nodup_map_eq a_id us x a Hnd Hx Ha E).
Qed.



Lemma roles_add_NoDup (r : string) (l : list string) : NoDup l -> NoDup (roles_add r l).
Proof.
  intros H. unfold roles_add. destruct (decide (r ∈ l)); [done|].
  apply NoDup_app. split_and!; [done | | apply NoDup_singleton].
  intros x Hx ->%list_elem_of_singleton. done.
Qed.


Lemma char_field_codes_nil (n : option nat) (v : string) :
  char_field_codes n v = [] <->
  (forall k, n = Some k -> (py_len v <= k)%nat) /\ has_null v = false.
Proof.
  unfold char_field_codes. split.
  - intros H. apply app_eq_nil in H as [H1 H2]. split.
    + intros k ->. destruct (Nat.ltb k (py_len v)) eqn:L; [discriminate|].
      by apply Nat.ltb_ge.
    + destruct (has_null v); [discriminate | done].
  - intros [Hk Hn]. rewrite Hn. destruct n as [k|]; [|done].
    rewrite (proj2 (Nat.ltb_ge _ _) (Hk k eq_refl)). done.
Qed.

Lemma drf_char_field_inl (n : option nat) (inp : option string) (v : string) :
  drf_char_field n inp = inl v <->
  exists raw, inp = Some raw /\ v = py_strip raw /\ py_strip raw <> ""%string /\
    char_field_codes n (py_strip raw) = [].
Proof.
  unfold drf_char_field. split.
  - destruct inp as [raw|]; [|discriminate]. cbv zeta.
    destruct (String.eqb (py_strip raw) "") eqn:E; [discriminate|].
    apply String.eqb_neq in E.
    destruct (char_field_codes n (py_strip raw)) eqn:C; [|discriminate].
    intros [= <-]. exists raw. done.
  - intros (raw & -> & -> & Hne & Hc). cbv zeta.
    rewrite (proj2 (String.eqb_neq _ _) Hne), Hc. done.
Qed.

Lemma fresh_account_id_new (us : list account) : fresh_account_id us ∉ map a_id us.
Proof. intros H. apply foldr_max_ge in H. unfold fresh_account_id in H. lia. Qed.

Lemma username_field_inl (ok : string -> bool) (us : list account) (inp : option string)
    (v : string) :
  username_field ok us inp = inl v ->
  drf_char_field None inp = inl v /\ ok v = true /\ (v ∉ map a_username us) /\
  char_field_codes (Some 150%nat) v = [].
Proof.
  unfold username_field. destruct (drf_char_field None inp) as [v'|c]; [|discriminate].
  destruct (ok v') eqn:Eok;
    destruct (existsb (fun a => String.eqb (a_username a) v') us) eqn:Ex;
    destruct (char_field_codes (Some 150%nat) v') eqn:Ec;
    simpl; try discriminate.
  intros [= <-]. split_and!; try done.
  intros Hin. apply elem_of_map_iff in Hin as (a & Ha & Hin).
  assert (existsb (fun a => String.eqb (a_username a) v') us = true); [|congruence].
  apply existsb_exists. exists a. split; [by apply list_elem_of_In|].
  apply String.eqb_eq. done.
Qed.

Lemma admin_perm_request_user (a : account) :
  Views.admin_endpoint_permission (request_user a) = a_is_superuser a.
Proof. destruct a; reflexivity. Qed.

(** Both admin views answer only a superuser: any other requester, the
    AnonymousUser included and whatever roles it holds (the ['admin'] role
    among them), is refused before the handler runs and nothing changes;
    a superuser always reaches the handler. *)
Theorem admin_views_denied (req : option account) (uid : Z) (uid_in : option Z)
    (role_in : option string) (st : site) :
  (AdminUserDetailView_delete req uid st = (Denied, st) <-> is_admin_request req = false) /\
  (AdminRoleAssignmentView_post req uid_in role_in st = (Denied, st) <->
   is_admin_request req = false).
Proof.
  unfold AdminUserDetailView_delete, AdminRoleAssignmentView_post, is_admin_request.
  destruct req as [a|]; [|done].
  unfold Views.admin_endpoint_permission, Views.IsAdminUser_has_permission. simpl.
  destruct (a_is_superuser a); [|done]. split; split; try discriminate.
  - destruct (get_object_or_404 _) as [t|]; [destruct (Z.eqb _ _)|]; discriminate.
  - destruct uid_in, (drf_char_field (Some 50%nat) role_in); try discriminate.
    destruct (find_account _ _); discriminate.
Qed.

(** [AdminUserDetailView.delete] by a superuser: an unknown id gives DRF's
    404 and an own id gives 403 SELF_DELETE_FORBIDDEN, both writing
    nothing; any other user is deleted with 204, together with their
    interactions (CASCADE), leaving the other users, the roles and the
    movie store as they were. *)
Theorem admin_delete_outcomes (a : account) (uid : Z) (st : site) :
  a_is_superuser a = true ->
  let '(res, st') := AdminUserDetailView_delete (Some a) uid st in
  (find_account uid (s_users st) = None -> res = Handled (drf_not_found "User") /\ st' = st) /\
  (uid = a_id a -> find_account uid (s_users st) <> None ->
     res = Handled (error_response "You cannot delete your own admin account."
                      "SELF_DELETE_FORBIDDEN" 403 JNull) /\ st' = st) /\
  (uid <> a_id a -> find_account uid (s_users st) <> None ->
     res = Handled (success_response JNull "User deleted successfully." 204) /\
     (forall x, x ∈ s_users st' <-> x ∈ s_users st /\ a_id x <> uid) /\
     (forall i, i ∈ w_interactions (s_world st') <->
                i ∈ w_interactions (s_world st) /\ i_user i <> uid) /\
     s_roles st' = s_roles st /\ w_store (s_world st') = w_store (s_world st)).
Proof.
  intros Hsu. unfold AdminUserDetailView_delete, Views.admin_endpoint_permission,
    Views.IsAdminUser_has_permission. simpl. rewrite Hsu. simpl.
  destruct (find_account uid (s_users st)) as [t|] eqn:Ef; simpl.
  - destruct (find_account_spec _ _ _ Ef) as [Hid _]. rewrite Hid.
    destruct (Z.eqb uid (a_id a)) eqn:E; [apply Z.eqb_eq in E | apply Z.eqb_neq in E];
      (split_and!; [discriminate | |]).
    + intros _ _. done.
    + intros Hne. done.
    + intros Hne. done.
    + intros Hne _. split_and!; [done | | | done | done].
      * intros x. simpl. rewrite list_elem_of_filter. tauto.
      * intros i. simpl. rewrite list_elem_of_filter. tauto.
  - split_and!; [done | intros _ []; done | intros _ []; done].
Qed.


(** [AdminRoleAssignmentView.post] by a superuser never writes on a
    rejected request: a missing ['user_id'], or a ['role_name'] that is
    missing, or that once stripped by [str.strip()] is blank, longer than
    50 code points or holds a NUL character, gives 400 VALIDATION_ERROR
    with a non-empty [details]; a valid request naming an unknown user
    gives 404 USER_NOT_FOUND. *)
Theorem role_assignment_rejects (a : account) (uid_in : option Z) (role_in : option string)
    (st : site) :
  a_is_superuser a = true ->
  let '(res, st') := AdminRoleAssignmentView_post (Some a) uid_in role_in st in
  ((uid_in = None \/ role_in = None \/
    (exists raw, role_in = Some raw /\
       (py_strip raw = ""%string \/ (50 < py_len (py_strip raw))%nat \/
        has_null (py_strip raw) = true))) ->
   exists errs, errs <> [] /\
     res = Handled (error_response "Invalid role assignment data." "VALIDATION_ERROR" 400
                      (JObj errs)) /\ st' = st) /\
  (forall uid raw, uid_in = Some uid -> role_in = Some raw ->
     py_strip raw <> ""%string -> (py_len (py_strip raw) <= 50)%nat ->
     has_null (py_strip raw) = false ->
     find_account uid (s_users st) = None ->
     res = Handled (error_response "User not found." "USER_NOT_FOUND" 404 JNull) /\ st' = st).
Proof.
  intros Hsu. unfold AdminRoleAssignmentView_post. rewrite admin_perm_request_user, Hsu.
  destruct (drf_char_field (Some 50%nat) role_in) as [v|code] eqn:Ec.
  - apply drf_char_field_inl in Ec as (raw & -> & -> & Hne & Hc).
    apply char_field_codes_nil in Hc as [Hk Hn]. specialize (Hk 50%nat eq_refl).
    destruct uid_in as [uid|].
    + destruct (find_account uid (s_users st)) as [user|] eqn:Ef; split.
      * intros [H | [H | (raw' & [= <-] & [H | [H | H]])]];
          [discriminate | discriminate | done | lia | congruence].
      * intros uid' raw' [= <-] _ _ _ _. congruence.
      * intros [H | [H | (raw' & [= <-] & [H | [H | H]])]];
          [discriminate | discriminate | done | lia | congruence].
      * intros uid' raw' [= <-] _ _ _ _ _. done.
    + split; [|intros ? ? [=]].
      intros _. eexists. split; [|done]. unfold assign_errors. discriminate.
  - assert (Herr : assign_errors uid_in role_in <> []).
    { unfold assign_errors. rewrite Ec. destruct uid_in; discriminate. }
    destruct uid_in; (split; [intros _; eexists; split; [exact Herr | done] |]).
    + intros uid raw [= ->] -> Hne Hle Hnul _. exfalso.
      assert (drf_char_field (Some 50%nat) (Some raw) = inl (py_strip raw)); [|congruence].
      apply drf_char_field_inl. exists raw. split_and!; try done.
      apply char_field_codes_nil. split; [by intros k [= <-] | done].
    + intros uid raw [=].
Qed.

Lemma email_field_inl_none (ok : string -> bool) (inp : option string) :
  email_field ok inp = inl None -> inp = None.
Proof.
  unfold email_field. destruct inp as [raw|]; [|done]. cbv zeta.
  destruct (String.eqb (py_strip raw) ""); [discriminate|].
  destruct (_ ++ _); discriminate.
Qed.

Lemma register_user_cases (username_ok email_ok : string -> bool)
    (normalize_username py_lower : string -> string) (d : register_data) (st : site) :
  let '(res, st') := register_user username_ok email_ok normalize_username py_lower d st in
  res <> Denied /\
  (res = Raised -> r_email d = None /\ st' = st) /\
  (forall r, res = Handled r ->
     (resp_status r = 400 /\ st' = st) \/
     (resp_status r = 409 /\ st' = st /\
      exists raw_u, r_username d = Some raw_u /\
        (py_strip raw_u ∉ map a_username (s_users st)) /\
        (normalize_username (py_strip raw_u) ∈ map a_username (s_users st))) \/
     (resp_status r = 201 /\
      exists a raw_u raw_p raw_p2,
        st' = mk_site (s_users st ++ [a]) (roles_add "user" (s_roles st)) (s_world st) /\
        r_username d = Some raw_u /\ (py_strip raw_u ∉ map a_username (s_users st)) /\
        a_username a = normalize_username (py_strip raw_u) /\
        r_password d = Some raw_p /\ a_password a = py_strip raw_p /\
        r_password2 d = Some raw_p2 /\ py_strip raw_p2 = py_strip raw_p /\
        (a_id a ∉ map a_id (s_users st)) /\ (a_username a ∉ map a_username (s_users st)) /\
        a_is_superuser a = false /\ a_roles a = ["user"%string] /\
        Views.admin_endpoint_permission (request_user a) = false /\
        Permissions.IsAdminUser_has_permission (request_user a) = false)).
Proof.
  unfold register_user.
  destruct (username_field username_ok (s_users st) (r_username d)) as [un|cu] eqn:Eu;
  destruct (email_field email_ok (r_email d)) as [em|ce] eqn:Ee;
  destruct (drf_char_field None (r_password d)) as [pw|cp] eqn:Ep;
  destruct (drf_char_field None (r_password2 d)) as [pw2|cp2] eqn:Ep2;
  try (split_and!; [discriminate | discriminate | intros r [= <-]; left; done]).
  destruct (String.eqb pw pw2) eqn:Eq; simpl;
    [|split_and!; [discriminate | discriminate | intros r [= <-]; left; done]].
  apply String.eqb_eq in Eq. subst pw2.
  destruct em as [e|].
  - destruct (username_field_inl _ _ _ _ Eu) as (Hu & _ & Hnotin & _).
    apply drf_char_field_inl in Hu as (raw_u & Hru & -> & _).
    destruct (existsb (fun a => String.eqb (a_username a) (normalize_username (py_strip raw_u)))
                (s_users st)) eqn:Hex.
    + split_and!; [discriminate | discriminate |].
      intros r [= <-]. right. left. split_and!; [done | done |].
      exists raw_u. split_and!; [done | done |].
      apply existsb_exists in Hex as (a & Ha & Hb). apply String.eqb_eq in Hb.
      apply elem_of_map_iff. exists a. split; [done | by apply list_elem_of_In].
    + split_and!; [discriminate | discriminate |].
      intros r [= <-]. right. right. split; [done|].
      apply drf_char_field_inl in Ep as (raw_p & Hrp & -> & _).
      apply drf_char_field_inl in Ep2 as (raw_p2 & Hrp2 & Heq & _).
      eexists _, raw_u, raw_p, raw_p2. split_and!; try done.
      * apply fresh_account_id_new.
      * simpl. intros Hin. apply elem_of_map_iff in Hin as (a & Ha & Hin).
        assert (existsb (fun a => String.eqb (a_username a)
                  (normalize_username (py_strip raw_u))) (s_users st) = true); [|congruence].
        apply existsb_exists. exists a. split; [by apply list_elem_of_In|].
        apply String.eqb_eq. done.
  - split_and!; [discriminate | |].
    + intros _. split; [by apply (email_field_inl_none email_ok) | done].
    + intros r [=].
Qed.


(** The user-table views keep the primary key and the unique usernames of
    User and the unique names of Role: registering, deleting a user and
    assigning a role never create a duplicate. *)
Theorem site_views_keep_wf (username_ok email_ok : string -> bool)
    (normalize_username py_lower : string -> string) (st : site) :
  site_wf st ->
  (forall d, site_wf (snd (register_user username_ok email_ok normalize_username py_lower d st))) /\
  (forall req uid, site_wf (snd (AdminUserDetailView_delete req uid st))) /\
  (forall req uid_in role_in,
     site_wf (snd (AdminRoleAssignmentView_post req uid_in role_in st))).
Proof.
  intros Hwf. destruct Hwf as (Hid & Hun & Hro). split_and!.
  - intros d. pose proof (register_user_cases username_ok email_ok normalize_username py_lower d st)
      as H.
    destruct (register_user username_ok email_ok normalize_username py_lower d st)
      as [res st'] eqn:E.
    destruct H as (_ & HR & HH). simpl.
    destruct res as [|r|].
    + unfold register_user in E.
      repeat match type of E with
        | context [match ?x with _ => _ end] => destruct x
        | context [if ?x then _ else _] => destruct x
        end; try discriminate.
    + destruct (HH r eq_refl) as [[_ ->] | [(_ & -> & _) |
                                   (_ & a & _ & _ & _ & -> & _ & _ & _ & _ & _ & _ & _ &
                                    Hnid & Hnun & _)]].
      * split_and!; done.
      * split_and!; done.
      * unfold site_wf. simpl. rewrite !map_app. simpl. split_and!.
        -- apply NoDup_app. split_and!; [done | | apply NoDup_singleton].
           by intros x Hx ->%list_elem_of_singleton.
        -- apply NoDup_app. split_and!; [done | | apply NoDup_singleton].
           by intros x Hx ->%list_elem_of_singleton.
        -- by apply roles_add_NoDup.
    + destruct (HR eq_refl) as [_ ->]. split_and!; done.
  - intros req uid. unfold AdminUserDetailView_delete.
    destruct req as [a|]; [|split_and!; done].
    destruct (Views.admin_endpoint_permission (request_user a)); [|split_and!; done].
    destruct (find_account uid (s_users st)); simpl; [|split_and!; done].
    destruct (Z.eqb _ _); simpl; [split_and!; done|].
    split_and!; [by apply NoDup_map_filter | by apply NoDup_map_filter | done].
  - intros req uid_in role_in. unfold AdminRoleAssignmentView_post.
    destruct req as [a|]; [|split_and!; done].
    destruct (Views.admin_endpoint_permission (request_user a)); [|split_and!; done].
    destruct uid_in as [uid|]; [|split_and!; done].
    destruct (drf_char_field (Some 50%nat) role_in) as [name|]; [|split_and!; done].
    destruct (find_account uid (s_users st)) as [user|] eqn:Ef; [|split_and!; done].
    destruct (find_account_spec _ _ _ Ef) as [_ Hin]. unfold site_wf. simpl. split_and!.
    + by rewrite update_account_ids.
    + by rewrite (update_account_fields a_username user _ _ (fun b => eq_refl) Hin Hid).
    + by apply roles_add_NoDup.
Qed.

(** ** Witnesses for the properties of the seeding, movie, interaction and
    user-table views *)

Lemma store0_names_unique : genre_names_unique (genres store0).
Proof.
  intros k1 k2 n H1 H2. simpl in H1, H2.
  apply lookup_insert_Some in H1, H2.
  destruct H1 as [[<- <-] | [Hk1 H1]]; destruct H2 as [[<- E] | [Hk2 H2]]; try done;
    rewrite ?lookup_insert_Some, ?lookup_empty in *;
    repeat match goal with H : _ \/ _ |- _ => destruct H end;
    repeat match goal with H : _ /\ _ |- _ => destruct H end; subst; try done; congruence.
Qed.

Lemma seed_initial_genres_names_unique_witness :
  genre_names_unique (genres store0) /\ genre_names_unique (genres store_g).
Proof.
  split; [exact store0_names_unique |].
  exact (seed_initial_genres_names_unique P_genres genre_name_ok0 store0 store0_names_unique).
Defined.

Lemma seed_initial_genres_contents_witness :
  movies store_g = movies store0 /\
  (forall e, e ∈ genre_list0 -> genres store_g !! ge_id e = Some (ge_name e)) /\
  (forall k, k ∉ map ge_id genre_list0 -> genres store_g !! k = genres store0 !! k).
Proof.
  apply (seed_initial_genres_contents P_genres genre_name_ok0 store0 store_g
           (BGenres (Some genre_list0)) genre_list0).
  - reflexivity.
  - reflexivity.
  - apply (bool_decide_unpack _). vm_compute. reflexivity.
  - vm_compute. reflexivity.
Defined.

Lemma seed_initial_genres_idempotent_witness :
  seed_initial_genres P_genres genre_name_ok0 store_g = (SeedReturned true, store_g).
Proof.
  apply (seed_initial_genres_idempotent P_genres genre_name_ok0 store0 store_g
           (BGenres (Some genre_list0)) genre_list0).
  - exact store0_names_unique.
  - reflexivity.
  - reflexivity.
  - apply (bool_decide_unpack _). vm_compute. reflexivity.
  - vm_compute. reflexivity.
Defined.

Lemma seed_then_upsert_links_witness :
  exists m s2, save_movie_and_genres_to_db all_ok 5 (Some d0) store_g = (Some m, s2) /\
    forall g, g ∈ genre_ids_from_tmdb d0 -> g ∈ map ge_id genre_list0 -> g ∈ m_genres m.
Proof.
  apply (seed_then_upsert_links P_genres genre_name_ok0 all_ok 5 store0 store_g
           (BGenres (Some genre_list0)) genre_list0 d0 27205).
  - exact store0_wf.
  - vm_compute. reflexivity.
  - reflexivity.
  - reflexivity.
  - reflexivity.
  - lia.
  - reflexivity.
Defined.

Lemma upsert_all_spec_witness :
  let '(local, w') := upsert_all all_ok [d0; d1] w0 in
  store_wf (w_store w') /\ (length local <= 2)%nat /\
  (forall m, m ∈ local -> has_row (m_id m) (tmdb_id m) (w_store w')) /\
  genres (w_store w') = genres (w_store w0) /\ w_cache w' = w_cache w0 /\
  w_interactions w' = w_interactions w0.
Proof. exact (upsert_all_spec all_ok [d0; d1] w0 store0_wf). Defined.

Lemma trending_cache_miss_witness :
  (get_tmdb_trending_movies P0 = [] /\
   fst (TrendingMoviesView_get P0 all_ok w0)
   = error_response "Could not fetch trending movies." "TMDB_API_ERROR" 503 JNull /\
   w_store (snd (TrendingMoviesView_get P0 all_ok w0)) = w_store w0 /\
   w_cache (snd (TrendingMoviesView_get P0 all_ok w0)) = w_cache w0) \/
  (exists local,
     get_tmdb_trending_movies P0 <> [] /\
     fst (TrendingMoviesView_get P0 all_ok w0)
     = success_response (serialize_movies (w_store (snd (TrendingMoviesView_get P0 all_ok w0))) local)
         default_message 200 /\
     w_cache (snd (TrendingMoviesView_get P0 all_ok w0)) !! "trending_movies"
     = Some (serialize_movies (w_store (snd (TrendingMoviesView_get P0 all_ok w0))) local, 3600) /\
     (local <> [] -> TrendingMoviesView_get P0 all_ok (snd (TrendingMoviesView_get P0 all_ok w0))
                     = (fst (TrendingMoviesView_get P0 all_ok w0),
                        snd (TrendingMoviesView_get P0 all_ok w0))) /\
     (local = [] -> exists l,
        w_log (TrendingMoviesView_get P0 all_ok (snd (TrendingMoviesView_get P0 all_ok w0))).2
        = l ++ EvProviderCall ETrending :: w_log (snd (TrendingMoviesView_get P0 all_ok w0)))).
Proof.
  apply (trending_cache_miss P0 all_ok w0).
  - reflexivity.
  - apply surjective_pairing.
Defined.

Lemma detail_unsaved_payload_cached_witness :
  let initial := JObj [("title", JStr ""); ("overview", JStr "");
                       ("poster_path", JStr ""); ("release_date", JNull)] in
  exists w1, MovieDetailByTmdbIdView_get P0 none_ok 550 w0
             = (success_response initial default_message 200, w1) /\
    w_cache w1 !! detail_cache_key 550 = Some (initial, 86400) /\
    w_store w1 = w_store w0.
Proof.
  apply (detail_unsaved_payload_cached P0 none_ok 550 w0 (BMovie (pl (Some 550) [28]))).
  - reflexivity.
  - reflexivity.
  - reflexivity.
  - reflexivity.
  - vm_compute. reflexivity.
Defined.

Lemma detail_provider_unavailable_witness :
  exists w1, MovieDetailByTmdbIdView_get P0 all_ok 7 w0
             = (error_response ("Movie with TMDb ID " +:+ pretty 7 +:+ " not found.")
                  "TMDB_MOVIE_NOT_FOUND" 404 JNull, w1) /\
    w_cache w1 = w_cache w0 /\ w_store w1 = w_store w0.
Proof.
  apply (detail_provider_unavailable P0 all_ok 7 w0).
  - reflexivity.
  - reflexivity.
  - left. reflexivity.
Defined.

Lemma movie_recommendations_view_outcomes_witness :
  let '(r, w1) := MovieRecommendationsView_get P0 all_ok 1 w_rec in
  store_wf (w_store w1) /\ w_cache w1 = w_cache w_rec /\ resp_status r <> 404 /\
  (find_movie 1 (w_store w_rec) = None ->
     r = error_response "An unexpected error occurred while fetching recommendations."
           "SERVER_ERROR" 500 JNull /\ w1 = log_event EvStoreRead w_rec) /\
  (forall base, find_movie 1 (w_store w_rec) = Some base ->
     EvProviderCall (ERecommendations (tmdb_id base)) ∈ w_log w1 /\
     (get_tmdb_movie_recommendations P0 (tmdb_id base) = [] ->
        r = success_response (JArr []) "No recommendations found for this movie." 200 /\
        w_store w1 = w_store w_rec)).
Proof.
  apply (movie_recommendations_view_outcomes P0 all_ok 1 w_rec).
  split; apply (bool_decide_unpack _); vm_compute; reflexivity.
Defined.

Lemma search_cache_untouched_witness :
  let '(r, w1) := MovieSearchView_get P0 all_ok (Some " Inception ") w0 in
  w_cache w1 = w_cache w0 /\ store_wf (w_store w1) /\
  genres (w_store w1) = genres (w_store w0) /\
  (get_tmdb_movie_search_results P0 (py_strip (default "" (Some " Inception "))) = [] ->
   w_store w1 = w_store w0).
Proof. exact (search_cache_untouched P0 all_ok (Some " Inception ") w0 store0_wf). Defined.

Lemma interaction_views_keep_unique_witness :
  interactions_wf (w_interactions w_rec) /\
  (forall movie_in type_in,
     interactions_wf (w_interactions (UserInteractionsView_post 1 movie_in type_in w_rec).2)) /\
  (forall iid, interactions_wf (w_interactions (UserInteractionDetailView_delete 1 iid w_rec).2)).
Proof.
  assert (H : interactions_wf (w_interactions w_rec))
    by (split; apply (bool_decide_unpack _); vm_compute; reflexivity).
  split; [exact H | exact (interaction_views_keep_unique 1 w_rec H)].
Defined.

Lemma like_then_recommend_witness :
  m_genres (mk_row 3 300 (mf 90) {[12]} 0 0)
    ⊆ liked_genres_ids 1 (snd (UserInteractionsView_post 1 (Some 3) (Some "LIKED"%string) w_rec)) /\
  exists ms,
    fst (UserRecommendationsView_get P0 all_ok 1
           (snd (UserInteractionsView_post 1 (Some 3) (Some "LIKED"%string) w_rec)))
    = success_response (serialize_movies (w_store w_rec) ms)
        "Personalized recommendations generated." 200 /\
    mk_row 3 300 (mf 90) {[12]} 0 0 ∉ ms.
Proof.
  apply (like_then_recommend P0 all_ok 1 3 w_rec
           (snd (UserInteractionsView_post 1 (Some 3) (Some "LIKED"%string) w_rec))
           (fst (UserInteractionsView_post 1 (Some 3) (Some "LIKED"%string) w_rec))).
  - apply surjective_pairing.
  - reflexivity.
  - reflexivity.
  - simpl. set_solver.
Defined.

Lemma admin_delete_outcomes_witness :
  let '(res, st') := AdminUserDetailView_delete (Some admin0) 2 site0 in
  (find_account 2 (s_users site0) = None -> res = Handled (drf_not_found "User") /\ st' = site0) /\
  (2 = a_id admin0 -> find_account 2 (s_users site0) <> None ->
     res = Handled (error_response "You cannot delete your own admin account."
                      "SELF_DELETE_FORBIDDEN" 403 JNull) /\ st' = site0) /\
  (2 <> a_id admin0 -> find_account 2 (s_users site0) <> None ->
     res = Handled (success_response JNull "User deleted successfully." 204) /\
     (forall x, x ∈ s_users st' <-> x ∈ s_users site0 /\ a_id x <> 2) /\
     (forall i, i ∈ w_interactions (s_world st') <->
                i ∈ w_interactions (s_world site0) /\ i_user i <> 2) /\
     s_roles st' = s_roles site0 /\ w_store (s_world st') = w_store (s_world site0)).
Proof. exact (admin_delete_outcomes admin0 2 site0 eq_refl). Defined.

Lemma search_blank_query_rejected_witness :
  utf8_decode (list_ascii_of_string (default "" (Some nbsp))) = Some [160] /\
  (forallb py_isspace [160] = true ->
     MovieSearchView_get P0 all_ok (Some nbsp) w0
     = (error_response "Search query parameter is required." "MISSING_QUERY" 400 JNull, w0)) /\
  (forallb py_isspace [160] = false ->
     exists r w', MovieSearchView_get P0 all_ok (Some nbsp) w0 = (r, w') /\ resp_status r = 200 /\
       EvProviderCall (ESearch (py_strip (default "" (Some nbsp)))) ∈ w_log w').
Proof.
  assert (H : utf8_decode (list_ascii_of_string (default "" (Some nbsp))) = Some [160])
    by reflexivity.
  split; [exact H | exact (search_blank_query_rejected P0 all_ok (Some nbsp) w0 [160] H)].
Defined.


Lemma role_assignment_rejects_witness :
  let '(res, st') := AdminRoleAssignmentView_post (Some admin0) (Some 2) (Some nbsp) site0 in
  ((Some 2 = None \/ Some nbsp = None \/
    (exists raw, Some nbsp = Some raw /\
       (py_strip raw = ""%string \/ (50 < py_len (py_strip raw))%nat \/
        has_null (py_strip raw) = true))) ->
   exists errs, errs <> [] /\
     res = Handled (error_response "Invalid role assignment data." "VALIDATION_ERROR" 400
                      (JObj errs)) /\ st' = site0) /\
  (forall uid raw, Some 2 = Some uid -> Some nbsp = Some raw ->
     py_strip raw <> ""%string -> (py_len (py_strip raw) <= 50)%nat ->
     has_null (py_strip raw) = false ->
     find_account uid (s_users site0) = None ->
     res = Handled (error_response "User not found." "USER_NOT_FOUND" 404 JNull) /\ st' = site0).
Proof. exact (role_assignment_rejects admin0 (Some 2) (Some nbsp) site0 eq_refl). Defined.

(** The 409 answer is reached: "ｂｏｂ" passes the UniqueValidator next to
    "bob", and its NFKC form is "bob". *)
Example register_fullwidth_duplicate :
  let '(res, st') := register_user (fun _ => true) (fun _ => true) nfkc_fullwidth (fun s => s)
                       (mk_register_data (Some fullwidth_bob) (Some "b@example.com")
                          (Some "pw") (Some "pw")) site0 in
  res = Handled (error_response "User with this email or username already exists."
                   "DUPLICATE_USER" 409 JNull) /\ st' = site0.
Proof. vm_compute. split; reflexivity. Qed.

Lemma site_views_keep_wf_witness :
  site_wf site0 /\
  (forall d, site_wf (snd (register_user (fun _ => true) (fun _ => true) (fun s => s)
                                         (fun s => s) d site0))) /\
  (forall req uid, site_wf (snd (AdminUserDetailView_delete req uid site0))) /\
  (forall req uid_in role_in,
     site_wf (snd (AdminRoleAssignmentView_post req uid_in role_in site0))).
Proof.
  assert (H : site_wf site0)
    by (split_and!; apply (bool_decide_unpack _); vm_compute; reflexivity).
  split; [exact H | exact (site_views_keep_wf (fun _ => true) (fun _ => true) (fun s => s) (fun s => s) site0 H)].
Defined.
